(** * cf-markdown-writer-worker: HTML chunk splitting, extraction cleanup,
      prompt assembly and run orchestration

    A shallow embedding of the TypeScript sources (index.ts in its three
    revisions, llama-writer.ts, gemini-writer.ts, basewriter.ts) and the
    properties of the specification that were checked against them.

    JavaScript strings are sequences of UTF-16 code units; they are modelled
    as lists of code units, so that [length], [slice], [lastIndexOf] and the
    regular expressions of the source act on the same positions as in the
    program. *)

From Stdlib Require Import List Bool Arith NArith ZArith Lia Ascii.
From Stdlib Require Import QArith Lqa.
From Stdlib Require String DecimalString.
Close Scope Q_scope.
Import ListNotations.
Import String.StringSyntax.
Delimit Scope string_scope with string.

(* ================================================================== *)
(** ** Strings and values of the source language *)
(* ================================================================== *)

Module JS.

(** One UTF-16 code unit. *)
Definition char := N.

(** A JavaScript string. *)
Definition jsstring := list char.

(** Source literals, written as Rocq strings. *)
Definition str (s : String.string) : jsstring :=
  map N_of_ascii (String.list_ascii_of_string s).
Arguments str s%_string.

Definition char_eqb (a b : char) : bool := N.eqb a b.

Fixpoint jsstring_eqb (a b : jsstring) : bool :=
  match a, b with
  | [], [] => true
  | x :: a', y :: b' => char_eqb x y && jsstring_eqb a' b'
  | _, _ => false
  end.

Definition LT : char := 60%N.      (* '<' *)
Definition GT : char := 62%N.      (* '>' *)
Definition SLASH : char := 47%N.   (* '/' *)
Definition SPACE : char := 32%N.   (* ' ' *)
Definition NL : char := 10%N.      (* '\n' *)
Definition TAB : char := 9%N.      (* '\t' *)

(** [s.startsWith(p)], also what an anchored literal pattern tests. *)
Fixpoint starts_with (p s : jsstring) : bool :=
  match p, s with
  | [], _ => true
  | x :: p', y :: s' => char_eqb x y && starts_with p' s'
  | _ :: _, [] => false
  end.

(** [s.lastIndexOf(c)]: [None] stands for the result -1. *)
Fixpoint lastIndexOf (c : char) (s : jsstring) : option nat :=
  match s with
  | [] => None
  | x :: s' =>
      match lastIndexOf c s' with
      | Some i => Some (S i)
      | None => if char_eqb x c then Some 0 else None
      end
  end.

(** [s.slice(0, n)] and [s.slice(n)] for [0 <= n]. *)
Definition slice_to (n : nat) (s : jsstring) : jsstring := firstn n s.
Definition slice_from (n : nat) (s : jsstring) : jsstring := skipn n s.

(** Decimal rendering of a natural number, as [String(n)] gives it for an
    array index. *)
Definition dec_nat (n : nat) : jsstring :=
  str (DecimalString.NilZero.string_of_uint (Nat.to_uint n)).

(** A finite JavaScript number. A double is a rational, and the program
    only compares such a number with the length of a string, which is
    exact. (Against NaN and against Infinity both comparisons below are
    false, as they are against any finite bound beyond the lengths at
    hand.) *)
Definition number := Q.
Bind Scope Q_scope with number.

(** [s.length], as a number. *)
Definition units (s : jsstring) : number := inject_Z (Z.of_nat (length s)).

(** [s.length >= x] and [s.length > x]. *)
Definition length_ge (s : jsstring) (x : number) : bool :=
  Qle_bool x (units s).
Definition length_gt (s : jsstring) (x : number) : bool :=
  negb (Qle_bool (units s) x).

(** The values a field read from a service response can hold. The fields
    are untyped at run time, and what a service sends is deserialised
    data: [undefined] for a field that is absent, [null], a boolean, a
    number, a string, an array or a plain object. A number is kept as the
    text that [String] gives for it, first code unit and rest (that text
    is never empty); the program does nothing with such a field but
    coerce it. *)
#[warnings="-register-all"]
Inductive value :=
| VUndefined
| VNull
| VBool (b : bool)
| VNumber (first : char) (rest : jsstring)
| VString (s : jsstring)
| VArray (items : list value)
| VObject.

Definition COMMA : char := 44%N.   (* ',' *)

(** [texts.join(",")]. *)
Fixpoint comma_join (texts : list jsstring) : jsstring :=
  match texts with
  | [] => []
  | [s] => s
  | s :: rest => s ++ COMMA :: comma_join rest
  end.

(** [String(v)]. An array is its elements joined by commas, where
    [undefined] and [null] elements give the empty text; a plain object
    is ["[object Object]"]. *)
Fixpoint String_ (v : value) : jsstring :=
  match v with
  | VUndefined => str "undefined"
  | VNull => str "null"
  | VBool true => str "true"
  | VBool false => str "false"
  | VNumber first rest => first :: rest
  | VString s => s
  | VArray items =>
      comma_join
        (map (fun item =>
                match item with
                | VUndefined | VNull => []
                | _ => String_ item
                end) items)
  | VObject => str "[object Object]"
  end.

(** Truthiness of a string: only the empty string is falsy. *)
Definition truthy (s : jsstring) : bool :=
  match s with [] => false | _ :: _ => true end.

(** How a call completes: normally with a value, or by throwing. The
    thrown object is represented by its [message]. *)
Inductive completion (A : Type) :=
| Normal (a : A)
| Throw (message : jsstring).
Arguments Normal {A} a.
Arguments Throw {A} message.

End JS.
Import JS.

(* ================================================================== *)
(** ** The Chunk Splitter: [splitHtml] *)
(* ================================================================== *)

Module Splitter.

(** The local variables of [splitHtml]. [chunks] and [tagStack] are
    arrays: [push] appends at the end, [pop] removes the last entry. *)
Record state := mkState {
  chunks : list jsstring;
  currentChunk : jsstring;
  tagStack : list jsstring;
  inTag : bool;
  tagContent : jsstring
}.

Definition init : state := mkState [] [] [] false [].

(** Characters that [.] does not match in a pattern without the [s] flag. *)
Definition line_terminator (c : char) : bool :=
  char_eqb c 10%N || char_eqb c 13%N || char_eqb c 8232%N || char_eqb c 8233%N.

(** [.*\/>] at the current position. *)
Fixpoint dots_then_slash_gt (s : jsstring) : bool :=
  match s with
  | [] => false
  | c :: s' =>
      starts_with [SLASH; GT] s
      || (negb (line_terminator c) && dots_then_slash_gt s')
  end.

(** [tagContent.match(/^<\//)] *)
Definition is_closing (tc : jsstring) : bool := starts_with [LT; SLASH] tc.

(** [tagContent.match(/^<.*\/>/)] *)
Definition is_self_closing (tc : jsstring) : bool :=
  match tc with
  | c :: s => char_eqb c LT && dots_then_slash_gt s
  | [] => false
  end.

(** The longest prefix matched by [[^ >]*]. *)
Fixpoint name_chars (s : jsstring) : jsstring :=
  match s with
  | [] => []
  | c :: s' =>
      if char_eqb c SPACE || char_eqb c GT then [] else c :: name_chars s'
  end.

(** [tagContent.match(/^<([^ >]+)/)?.[1]] *)
Definition tag_name (tc : jsstring) : option jsstring :=
  match tc with
  | c :: s =>
      if char_eqb c LT then
        match name_chars s with
        | [] => None
        | n => Some n
        end
      else None
  | [] => None
  end.

Definition open_tag (name : jsstring) : jsstring := [LT] ++ name ++ [GT].
Definition close_tag (name : jsstring) : jsstring := [LT; SLASH] ++ name ++ [GT].

(** The loop [for (j = 0; j < tagStack.length; j++)] appending [<name>]. *)
Definition open_tags (stack : list jsstring) : jsstring :=
  concat (map open_tag stack).

(** The loop [for (j = tagStack.length - 1; j >= 0; j--)] appending [</name>]. *)
Definition close_tags (stack : list jsstring) : jsstring :=
  concat (map close_tag (rev stack)).

(** [currentChunk.length >= maxChunkSize] *)
Definition reached (cur : jsstring) (maxChunkSize : number) : bool :=
  length_ge cur maxChunkSize.

(** The split index chosen at a boundary. *)
Definition split_index (cur : jsstring) : nat :=
  match lastIndexOf SPACE cur with
  | Some i => i
  | None => length cur
  end.

(** The classification of a completed tag token and its effect on the
    stack. *)
Definition update_stack (tc : jsstring) (stack : list jsstring) : list jsstring :=
  if is_closing tc then removelast stack
  else if negb (is_self_closing tc) then
    match tag_name tc with
    | Some n => stack ++ [n]
    | None => stack
    end
  else stack.

(** The body run when the size test succeeds. As in the source, the
    accumulator is emptied and refilled with the opening tags before
    [currentChunk.slice(splitIndex)] is evaluated, so the slice is taken
    of the opening tags. *)
Definition emit (st : state) (cur : jsstring) : state :=
  let splitIndex := split_index cur in
  let chunkToAdd := slice_to splitIndex cur ++ close_tags (tagStack st) in
  let reopened := open_tags (tagStack st) in
  mkState (chunks st ++ [chunkToAdd])
          (reopened ++ slice_from splitIndex reopened)
          (tagStack st) (inTag st) (tagContent st).

(** One iteration of the character loop. *)
Definition step (maxChunkSize : number) (st : state) (c : char) : state :=
  if char_eqb c LT then
    mkState (chunks st) (currentChunk st) (tagStack st) true [c]
  else if inTag st then
    let tc := tagContent st ++ [c] in
    if char_eqb c GT then
      mkState (chunks st) (currentChunk st ++ tc)
              (update_stack tc (tagStack st)) false []
    else
      mkState (chunks st) (currentChunk st) (tagStack st) (inTag st) tc
  else
    let cur := currentChunk st ++ [c] in
    let st' := mkState (chunks st) cur (tagStack st) (inTag st) (tagContent st) in
    if reached cur maxChunkSize && negb (inTag st) then emit st' cur
    else st'.

(** The whole loop over the input. *)
Definition scan (maxChunkSize : number) (html : jsstring) : state :=
  fold_left (step maxChunkSize) html init.

(** [if (currentChunk) chunks.push(currentChunk); return chunks] *)
Definition finish (st : state) : list jsstring :=
  if truthy (currentChunk st) then chunks st ++ [currentChunk st]
  else chunks st.

Definition splitHtml (html : jsstring) (maxChunkSize : number) : list jsstring :=
  finish (scan maxChunkSize html).

(** [splitHtml] has no guard, no [throw] and calls nothing that can
    raise: a call always completes normally. *)
Definition splitHtml_completion (html : jsstring) (maxChunkSize : number)
  : completion (list jsstring) :=
  Normal (splitHtml html maxChunkSize).

End Splitter.

(* ================================================================== *)
(** ** What the specification says of chunk boundaries *)
(* ================================================================== *)

Module SplitterSpec.
Import Splitter.

(** Names on the stack hold no space. *)
Definition names_ok (stack : list jsstring) : Prop :=
  Forall (fun n => ~ In SPACE n) stack.

(** The loop emits chunk number [k] while reading some character of
    [html], and [stack] is the open-tag stack at that moment. *)
Definition boundary_at (maxChunkSize : number) (html : jsstring) (k : nat)
           (stack : list jsstring) : Prop :=
  exists p c q,
    html = p ++ c :: q /\
    length (chunks (scan maxChunkSize p)) = k /\
    length (chunks (scan maxChunkSize (p ++ [c]))) = S k /\
    tagStack (scan maxChunkSize (p ++ [c])) = stack.

(** Chunk [c1], emitted at boundary [k], ends with the closing tags of
    the stack, innermost first; its successor [c2] starts with the opening
    tags of the same stack, outermost first. *)
Definition balanced (maxChunkSize : number) (html : jsstring) (k : nat)
           (c1 c2 : jsstring) : Prop :=
  exists stack body rest,
    boundary_at maxChunkSize html k stack /\
    c1 = body ++ close_tags stack /\
    c2 = open_tags stack ++ rest.

(** What holds of the loop state after reading the prefix [l]. *)
Record inv (maxChunkSize : number) (l : jsstring) (st : state) : Prop := {
  inv_names : names_ok (tagStack st);
  inv_pairs : forall k c1 c2,
    nth_error (chunks st) k = Some c1 ->
    nth_error (chunks st) (S k) = Some c2 ->
    balanced maxChunkSize l k c1 c2;
  inv_last : forall pre c1,
    chunks st = pre ++ [c1] ->
    exists stack body rest,
      boundary_at maxChunkSize l (length pre) stack /\
      names_ok stack /\
      c1 = body ++ close_tags stack /\
      currentChunk st = open_tags stack ++ rest
}.

(** A fragment of HTML as a list of tokens: text, the opening tag of an
    element, the tag of a void element (one without content or closing
    tag, such as [br]) and a closing tag. *)
Inductive token :=
| Chars (text : jsstring)
| Open (name : jsstring)
| Void (name : jsstring)
| Close (name : jsstring).

Definition render_token (t : token) : jsstring :=
  match t with
  | Chars text => text
  | Open name => str "<" ++ name ++ str ">"
  | Void name => str "<" ++ name ++ str ">"
  | Close name => str "</" ++ name ++ str ">"
  end.

Definition render (tokens : list token) : jsstring :=
  flat_map render_token tokens.

(** The elements left open after the tokens, outermost first: an opening
    tag opens its element, a closing tag closes the innermost open element
    when it bears that name, and nothing else changes what is open. *)
Definition open_step (opened : list jsstring) (t : token) : list jsstring :=
  match t with
  | Open name => opened ++ [name]
  | Close name =>
      match rev opened with
      | innermost :: outer =>
          if jsstring_eqb innermost name then rev outer else opened
      | [] => opened
      end
  | _ => opened
  end.

Definition open_elements (tokens : list token) : list jsstring :=
  fold_left open_step tokens [].

(** The number of characters of [html] that the loop appends outside a
    tag token: those other than [<] that are read while no tag token is
    open. [inside] tells whether a tag token is open where [html]
    starts. *)
Fixpoint appended_outside (inside : bool) (html : jsstring) : nat :=
  match html with
  | [] => 0
  | c :: rest =>
      if char_eqb c LT then appended_outside true rest
      else if inside then appended_outside (negb (char_eqb c GT)) rest
      else S (appended_outside false rest)
  end.

(** Whether a call was rejected, that is, completed by throwing. *)
Definition rejected {A} (c : completion A) : bool :=
  match c with
  | Throw _ => true
  | Normal _ => false
  end.

(** A chunk holds an unterminated tag token when some [<] in it is
    followed by no [>]. *)
Fixpoint unterminated_tag (chunk : jsstring) : bool :=
  match chunk with
  | [] => false
  | c :: rest =>
      (char_eqb c LT && negb (existsb (char_eqb GT) rest))
      || unterminated_tag rest
  end.

End SplitterSpec.

(* ================================================================== *)
(** ** Further notions about the input of the Chunk Splitter *)
(* ================================================================== *)

Module SplitterInput.

(** Every [<] of the input starts a tag token that a [>] ends before the
    next [<] and before the end of the input. [inside] tells whether the
    input starts inside a tag token. *)
Fixpoint tokens_terminated (inside : bool) (s : jsstring) : bool :=
  match s with
  | [] => negb inside
  | c :: rest =>
      if char_eqb c LT then negb inside && tokens_terminated true rest
      else if char_eqb c GT then tokens_terminated false rest
      else tokens_terminated inside rest
  end.

(** [x] is a contiguous piece of [s]. *)
Definition piece_of (x s : jsstring) : Prop :=
  exists before after, s = before ++ x ++ after.

End SplitterInput.

(* ================================================================== *)
(** ** The document tree and the cheerio calls of the extractor *)
(* ================================================================== *)

Module Dom.

Definition attribute := (jsstring * jsstring)%type.

(** The parsed tree: text, comments and elements with their attributes
    and ordered children. *)
#[warnings="-register-all"]
Inductive node :=
| Text (data : jsstring)
| Comment (data : jsstring)
| Element (name : jsstring) (attribs : list attribute) (children : list node).

(** A document is the list of children of its root. *)
Definition document := list node.

(** The selectors with which the cleanup calls [$]: ['script'] and
    ['style'] are [ByTag], ['*'] is [Universal] and
    ['img[src^="data:"]'] is [ByTagAttrPrefix]. *)
Inductive simple_selector :=
| ByTag (tag : jsstring)
| Universal
| ByTagAttrPrefix (tag attr prefix : jsstring).

Fixpoint get_attr (attr : jsstring) (attribs : list attribute) : option jsstring :=
  match attribs with
  | [] => None
  | (k, v) :: rest => if jsstring_eqb k attr then Some v else get_attr attr rest
  end.

Definition has_attr (attr : jsstring) (attribs : list attribute) : bool :=
  match get_attr attr attribs with Some _ => true | None => false end.

(** [delete attribs[attr]] *)
Definition delete_attr (attr : jsstring) (attribs : list attribute) : list attribute :=
  filter (fun kv => negb (jsstring_eqb (fst kv) attr)) attribs.

(** An attribute whose value begins with a non-empty prefix. *)
Definition attr_begins (attr prefix : jsstring) (attribs : list attribute) : bool :=
  match get_attr attr attribs with
  | Some v => truthy prefix && starts_with prefix v
  | None => false
  end.

Definition matches (sel : simple_selector) (name : jsstring)
           (attribs : list attribute) : bool :=
  match sel with
  | ByTag tag => jsstring_eqb name tag
  | Universal => true
  | ByTagAttrPrefix tag attr prefix =>
      jsstring_eqb name tag && attr_begins attr prefix attribs
  end.

(** [$(sel)]: the matching elements in document order. *)
Fixpoint select_node (sel : simple_selector) (n : node) : list node :=
  match n with
  | Element name attribs children =>
      (if matches sel name attribs then [n] else [])
        ++ flat_map (select_node sel) children
  | _ => []
  end.

Definition select (sel : simple_selector) (doc : document) : list node :=
  flat_map (select_node sel) doc.

(** [$(sel).remove()]: every matching element leaves the tree, with its
    subtree. *)
Fixpoint remove_node (sel : simple_selector) (n : node) : list node :=
  match n with
  | Element name attribs children =>
      if matches sel name attribs then []
      else [Element name attribs (flat_map (remove_node sel) children)]
  | _ => [n]
  end.

Definition remove (sel : simple_selector) (doc : document) : document :=
  flat_map (remove_node sel) doc.

(** [$(sel).removeAttr(attr)] *)
Fixpoint removeAttr_node (sel : simple_selector) (attr : jsstring) (n : node) : node :=
  match n with
  | Element name attribs children =>
      Element name
              (if matches sel name attribs then delete_attr attr attribs else attribs)
              (map (removeAttr_node sel attr) children)
  | _ => n
  end.

Definition removeAttr (sel : simple_selector) (attr : jsstring)
           (doc : document) : document :=
  map (removeAttr_node sel attr) doc.

(** The text of a node: the data of the text nodes below it. *)
Fixpoint textContent (n : node) : jsstring :=
  match n with
  | Text data => data
  | Comment _ => []
  | Element _ _ children => concat (map textContent children)
  end.

(** [.text()] of a selection, and of the whole document. *)
Definition text (nodes : list node) : jsstring := concat (map textContent nodes).

(** Is there an element, anywhere in the tree, with property [p]? *)
Fixpoint any_element (p : jsstring -> list attribute -> bool) (n : node) : bool :=
  match n with
  | Element name attribs children =>
      p name attribs || existsb (any_element p) children
  | _ => false
  end.

Definition doc_any (p : jsstring -> list attribute -> bool) (doc : document) : bool :=
  existsb (any_element p) doc.

(** The four things the cleanup is about. *)
Definition is_script (name : jsstring) (_ : list attribute) : bool :=
  jsstring_eqb name (str "script").
Definition is_style_element (name : jsstring) (_ : list attribute) : bool :=
  jsstring_eqb name (str "style").
Definition has_style_attribute (_ : jsstring) (attribs : list attribute) : bool :=
  has_attr (str "style") attribs.
Definition is_inline_image (name : jsstring) (attribs : list attribute) : bool :=
  jsstring_eqb name (str "img") && attr_begins (str "src") (str "data:") attribs.

(** Induction on trees, with the hypothesis on all children. *)
Section NodeInd.
Variable P : node -> Prop.
Hypothesis Htext : forall data, P (Text data).
Hypothesis Hcomment : forall data, P (Comment data).
Hypothesis Helement : forall name attribs children,
    Forall P children -> P (Element name attribs children).

Fixpoint node_induction (n : node) : P n :=
  match n with
  | Text data => Htext data
  | Comment data => Hcomment data
  | Element name attribs children =>
      @Helement name attribs children
        ((fix all (l : list node) : Forall P l :=
            match l with
            | [] => Forall_nil P
            | x :: rest => Forall_cons x (node_induction x) (all rest)
            end) children)
  end.
End NodeInd.

End Dom.

(* ================================================================== *)
(** ** The DOM Extractor: [preprocessHTML] *)
(* ================================================================== *)

Module Extractor.
Import Dom.

(** [PreprocessHTMLRules] *)
Record PreprocessHTMLRules := mkRule {
  type : jsstring;
  selector : option jsstring;
  exclude : option jsstring
}.

(** What [preprocessHTML] returns. *)
Record preprocessed := mkPreprocessed {
  title : jsstring;
  processedHtml : list jsstring
}.

(** The part of cheerio that is driven by strings coming from outside the
    program: the lenient parser behind [cheerio.load], and the selector
    engine applied to the selectors of the rules. A selector that cannot
    be parsed makes the call throw. [selection] is what [$(selector)]
    returns. *)
Record Cheerio := mkCheerio {
  load : jsstring -> document;
  selection : Type;
  query : document -> option jsstring -> completion selection;
  sel_length : selection -> nat;
  find_remove : document -> selection -> jsstring -> completion document;
  sel_html : document -> selection -> option jsstring
}.

(** [x || ""] for an optional string. *)
Definition or_empty (x : option jsstring) : jsstring :=
  match x with
  | Some s => s
  | None => []
  end.

(** The body of [for (const rule of rules)]: the state is the document,
    which [remove] mutates, and the [processedHtml] array. An exception
    inside the body is caught and the loop continues. *)
Definition apply_rule (ch : Cheerio) (acc : document * list jsstring)
           (rule : PreprocessHTMLRules) : document * list jsstring :=
  let '(doc, processedHtml) := acc in
  if jsstring_eqb (type rule) (str "css") then
    let excSelector := or_empty (exclude rule) in
    match query ch doc (selector rule) with
    | Throw _ => acc
    | Normal selectedDOM =>
        if 0 <? sel_length ch selectedDOM then
          match (if truthy excSelector
                 then find_remove ch doc selectedDOM excSelector
                 else Normal doc) with
          | Throw _ => acc
          | Normal doc' =>
              let selectedHtml := sel_html ch doc' selectedDOM in
              (doc', processedHtml ++ [or_empty selectedHtml])
          end
        else acc
    end
  else acc.

Definition apply_rules (ch : Cheerio) (doc : document)
           (rules : list PreprocessHTMLRules) : list jsstring :=
  snd (fold_left (apply_rule ch) rules (doc, [])).

(** [rules.length === 0] *)
Definition no_rules (rules : list PreprocessHTMLRules) : bool :=
  match rules with [] => true | _ :: _ => false end.

(** What follows the cleanup in both versions of [preprocessHTML]. *)
Definition extract (ch : Cheerio) (title : jsstring) (doc : document)
           (rules : list PreprocessHTMLRules) : preprocessed :=
  if no_rules rules then
    mkPreprocessed title [text (select (ByTag (str "body")) doc)]
  else
    mkPreprocessed title (apply_rules ch doc rules).

(** [$('script').remove(); $('style').remove();
     $('img[src^="data:"]').removeAttr('src')] *)
Definition strip_scripts_styles_images (doc : document) : document :=
  removeAttr (ByTagAttrPrefix (str "img") (str "src") (str "data:")) (str "src")
    (remove (ByTag (str "style"))
       (remove (ByTag (str "script")) doc)).

End Extractor.

Module ExtractorSpec.
Import Dom Extractor.

(** Scripts, style elements and inline image data are gone. *)
Definition stripped (doc : document) : Prop :=
  doc_any is_script doc = false /\
  doc_any is_style_element doc = false /\
  doc_any is_inline_image doc = false.

(** The values of the [style] attributes of the elements of a tree, in
    document order. *)
Fixpoint style_values_node (n : node) : list jsstring :=
  match n with
  | Element _ attribs children =>
      match get_attr (str "style") attribs with
      | Some v => [v]
      | None => []
      end ++ flat_map style_values_node children
  | _ => []
  end.

Definition style_values (doc : document) : list jsstring :=
  flat_map style_values_node doc.

(** The same for the elements that are neither a script or style element
    nor below one. *)
Fixpoint kept_style_values_node (n : node) : list jsstring :=
  match n with
  | Element name attribs children =>
      if jsstring_eqb name (str "script") || jsstring_eqb name (str "style")
      then []
      else match get_attr (str "style") attribs with
           | Some v => [v]
           | None => []
           end ++ flat_map kept_style_values_node children
  | _ => []
  end.

Definition kept_style_values (doc : document) : list jsstring :=
  flat_map kept_style_values_node doc.

(** The parse tree of [<p style="color:red">x</p>]. *)
Definition styled_paragraph : document :=
  [Element (str "html") []
     [Element (str "head") [] [];
      Element (str "body") []
        [Element (str "p") [(str "style", str "color:red")] [Text (str "x")]]]].

End ExtractorSpec.

Module ExtractorText.
Import Dom.

(** The text of a node with the subtrees of script and style elements
    left out. *)
Fixpoint visible_text_node (n : node) : jsstring :=
  match n with
  | Text data => data
  | Comment _ => []
  | Element name _ children =>
      if jsstring_eqb name (str "script") || jsstring_eqb name (str "style")
      then []
      else concat (map visible_text_node children)
  end.

Definition visible_text (doc : document) : jsstring :=
  concat (map visible_text_node doc).

End ExtractorText.

Module ExtractorRules.
Import Extractor.


End ExtractorRules.

(* ================================================================== *)
(** ** The Prompt Assembler: the [messages] array of [generateMarkdown] *)
(* ================================================================== *)

Module Prompt.

Inductive role := system | user.

Record message := mkMessage {
  role_of : role;
  content : jsstring
}.

Definition QUOTE : char := 34%N.   (* the double quote *)

(** [array.map((x, index) => f(x, index))], counting from [index]. *)
Fixpoint map_indexed {A B} (f : A -> nat -> B) (index : nat) (l : list A) : list B :=
  match l with
  | [] => []
  | x :: rest => f x index :: map_indexed f (S index) rest
  end.

(** [array.join(sep)] *)
Fixpoint join (sep : jsstring) (l : list jsstring) : jsstring :=
  match l with
  | [] => []
  | [x] => x
  | x :: rest => x ++ sep ++ join sep rest
  end.

(** The fixed text of the system message, up to the title. The template
    literal spans three source lines; [indent] is the white space that
    starts its second and third line. *)
Definition directive (indent : jsstring) : jsstring :=
  str "You are a helpful assistant that can read HTML. You will be given a few HTML snippets and you will need to generate a markdown output. "
    ++ [NL] ++ indent
    ++ str "Generating simple and clear markdown in using original text only found in the HTML. Remove all links, images, and URLs. Do not repeat information."
    ++ [NL] ++ indent
    ++ str "Always start the markdown with the page title as level 1 heading. The page title is ".

Definition system_content (indent title : jsstring) : jsstring :=
  directive indent ++ [QUOTE] ++ title ++ [QUOTE] ++ str ".".

(** [`HTML Chunk ${index + 1}: ${chunk}`] *)
Definition chunk_content (chunk : jsstring) (index : nat) : jsstring :=
  str "HTML Chunk " ++ dec_nat (index + 1) ++ str ": " ++ chunk.

Definition generation_directive : jsstring :=
  str "Generate a markdown output, in the HTML content original language language, using all available HTML chunks. ".

Definition final_content (additionalPrompt : jsstring) : jsstring :=
  generation_directive ++ additionalPrompt.

Definition messages (indent title : jsstring) (chunks : list jsstring)
           (additionalPrompt : jsstring) : list message :=
  [mkMessage system (system_content indent title)]
    ++ map_indexed (fun chunk index => mkMessage user (chunk_content chunk index)) 0 chunks
    ++ [mkMessage user (final_content additionalPrompt)].

End Prompt.

Module PromptSpec.
Import Prompt.

(** [msgs] is the prompt the specification describes for [title], the
    [chunks] and the instruction [additionalPrompt]: N+2 messages; first
    the system message, whose text is the fixed directive (markdown from
    the original text only, links, images and URLs removed, nothing
    repeated, the title as level 1 heading) followed by the title in
    double quotes; chunk i at position i+1 under the label i+1; last the
    fixed request to generate, followed by the instruction. The texts are
    written out here as the model is to receive them; [indent] is the
    white space that starts the second and third line of the directive. *)
Definition assembled (indent title : jsstring) (chunks : list jsstring)
           (additionalPrompt : jsstring) (msgs : list message) : Prop :=
  length msgs = length chunks + 2 /\
  nth_error msgs 0
    = Some (mkMessage system
              (str "You are a helpful assistant that can read HTML. You will be given a few HTML snippets and you will need to generate a markdown output. "
               ++ [10%N] ++ indent
               ++ str "Generating simple and clear markdown in using original text only found in the HTML. Remove all links, images, and URLs. Do not repeat information."
               ++ [10%N] ++ indent
               ++ str "Always start the markdown with the page title as level 1 heading. The page title is "
               ++ [34%N] ++ title ++ [34%N] ++ str ".")) /\
  (forall i chunk,
      nth_error chunks i = Some chunk ->
      nth_error msgs (i + 1)
        = Some (mkMessage user
                  (str "HTML Chunk " ++ dec_nat (i + 1) ++ str ": " ++ chunk))) /\
  nth_error msgs (length chunks + 1)
    = Some (mkMessage user
              (str "Generate a markdown output, in the HTML content original language language, using all available HTML chunks. "
               ++ additionalPrompt)).

End PromptSpec.

(* ================================================================== *)
(** ** The services a run talks to, and the effects of a run *)
(* ================================================================== *)

Module Runtime.
Import Prompt Extractor.

(** A row of [PageMetadata], as far as the program reads it. *)
Record row := mkRow {
  id : value;
  r2_path : value
}.

(** What [AI.run] resolves to, as far as the program reads it. A
    response whose [response] property cannot be read makes the access
    throw; that outcome is a [Throw] of the call. *)
Record ai_response := mkResponse {
  response : value
}.

(** An object of the raw bucket: what its [text()] completes with. *)
Definition r2object := completion jsstring.

(** The calls to outside services, as they are recorded in the trace of
    a run. *)
Inductive call :=
| MetadataSelect (url : jsstring)
| RawHtmlGet (key : jsstring)
| RawHtmlText (key : jsstring)
| RulesGet (key : jsstring)
| AiRun (model : jsstring) (messages : list message) (max_tokens : number)
| GeminiSend (systemPrompts : list jsstring) (maxOutputTokens : number)
             (html additionalPrompt : jsstring)
| KnowledgePut (key markdown : jsstring)
| MetadataUpdate (docId : jsstring).

(** [Env]: how each service answers. Beside the bindings of the worker it
    holds the two library entry points fed with outside text, cheerio and
    [JSON.parse] (followed by [?.rules || []]). *)
Record Env := mkEnv {
  AI_MODEL : jsstring;
  AI_run : jsstring -> list message -> number -> completion ai_response;
  GOOGLE_AI_send : list jsstring -> number -> jsstring -> jsstring -> completion jsstring;
  PAGE_METADATA_first : jsstring -> completion (option row);
  PAGE_METADATA_update : jsstring -> completion unit;
  HTML_PREPROCESS_get : jsstring -> completion (option jsstring);
  RAW_HTML_BUCKET_get : jsstring -> completion (option r2object);
  KNOWLEDGE_BUCKET_put : jsstring -> jsstring -> completion unit;
  cheerio : Cheerio;
  JSON_parse_rules : jsstring -> completion (list PreprocessHTMLRules)
}.

(** The mutable fields of a writer, with the trace of the calls made so
    far (oldest first). *)
Record wstate := mkWstate {
  docId : option jsstring;
  r2Key : option jsstring;
  trace : list call
}.

(** A freshly constructed writer. *)
Definition fresh : wstate := mkWstate None None [].

(** An [async] method: it reads and updates the writer, and completes
    normally or by throwing. *)
Definition M (A : Type) : Type := wstate -> completion A * wstate.

Definition ret {A} (a : A) : M A := fun s => (Normal a, s).

Definition throw {A} (message : jsstring) : M A := fun s => (Throw message, s).

Definition bind {A B} (m : M A) (k : A -> M B) : M B :=
  fun s =>
    match m s with
    | (Normal a, s') => k a s'
    | (Throw e, s') => (Throw e, s')
    end.

Definition lift {A} (c : completion A) : M A := fun s => (c, s).

(** [await service(...)]: the call is recorded, then completes as the
    service decides. *)
Definition perform {A} (c : call) (outcome : completion A) : M A :=
  fun s => (outcome, mkWstate (docId s) (r2Key s) (trace s ++ [c])).

Definition get_docId : M (option jsstring) := fun s => (Normal (docId s), s).
Definition get_r2Key : M (option jsstring) := fun s => (Normal (r2Key s), s).
Definition set_docId (v : jsstring) : M unit :=
  fun s => (Normal tt, mkWstate (Some v) (r2Key s) (trace s)).
Definition set_r2Key (v : jsstring) : M unit :=
  fun s => (Normal tt, mkWstate (docId s) (Some v) (trace s)).

(** Truthiness of [string | null | undefined]. *)
Definition truthy_opt (x : option jsstring) : bool :=
  match x with
  | Some s => truthy s
  | None => false
  end.

Inductive status := success | hardfail | softfail.

(** The object returned by [run]. *)
Record result := mkResult {
  message : jsstring;
  status_of : status;
  code : Z;
  markdown : option jsstring
}.

End Runtime.

Declare Scope run_scope.
Delimit Scope run_scope with run.
Notation "x <- m ;; k" := (Runtime.bind m (fun x => k))
  (at level 61, m at next level, right associativity) : run_scope.
Notation "m ;; k" := (Runtime.bind m (fun _ => k))
  (at level 61, right associativity) : run_scope.

(* ================================================================== *)
(** ** The stand-alone worker (index.ts before the writer classes) *)
(* ================================================================== *)

Module Worker.
Import Dom Extractor.

(** The cleanup of [preprocessHTML]; its last call is
    [$('*').removeAttr('style')]. No statement of the enclosing [try]
    block raises outside the per-rule [try]. *)
Definition cleanup (doc : document) : document :=
  removeAttr Universal (str "style") (strip_scripts_styles_images doc).

Definition preprocessHTML (ch : Cheerio) (html : jsstring)
           (rules : list PreprocessHTMLRules) : preprocessed :=
  let doc := load ch html in
  let title := text (select (ByTag (str "title")) doc) in
  extract ch title (cleanup doc) rules.

Definition DEFAULT_MAX_CHUNK_SIZE : number := 114688%Q.
Definition DEFAULT_MAX_TOKENS : number := 1024%Q.

Definition splitHtml (htmlInput : jsstring) (maxChunkSize : number) : list jsstring :=
  Splitter.splitHtml htmlInput maxChunkSize.

(** The template literal of the system message is indented with one tab. *)
Definition messages (title : jsstring) (chunks : list jsstring)
           (additionalPrompt : jsstring) : list Prompt.message :=
  Prompt.messages [TAB] title chunks additionalPrompt.

End Worker.

(* ================================================================== *)
(** ** The Run Orchestrator: [BaseWriter] *)
(* ================================================================== *)

Module BaseWriter.
Import Extractor Runtime.
Local Open Scope run_scope.

Section Writer.
Variable env : Env.
Variable url : jsstring.
(** The abstract method, implemented by each writer class. *)
Variable writeMarkdown : jsstring -> jsstring -> M jsstring.

(** Each method wraps its calls in [try { ... } catch (e) { throw e }]:
    an exception goes on to the caller unchanged. *)
Definition loadPageMetadata : M bool :=
  pageMetadata <- perform (MetadataSelect url) (PAGE_METADATA_first env url) ;;
  match pageMetadata with
  | None => ret false
  | Some r =>
      set_docId (String_ (id r)) ;;
      set_r2Key (String_ (r2_path r)) ;;
      ret true
  end.

Definition getHtml : M (option jsstring) :=
  key <- get_r2Key ;;
  if negb (truthy_opt key) then
    throw (str "r2Key is not set before calling getHtml()")
  else
    let path := or_empty key ++ str ".html" in
    r2Obj <- perform (RawHtmlGet path) (RAW_HTML_BUCKET_get env path) ;;
    match r2Obj with
    | None => ret None
    | Some obj =>
        html <- perform (RawHtmlText path) obj ;;
        ret (Some html)
    end.

Definition storeMarkdown (markdown : jsstring) : M unit :=
  key <- get_r2Key ;;
  if negb (truthy_opt key) then
    throw (str "r2Key is not set before calling storeMarkdown()")
  else
    let path := or_empty key ++ str ".md" in
    perform (KnowledgePut path markdown) (KNOWLEDGE_BUCKET_put env path markdown).

Definition updatePageMetadata : M unit :=
  doc <- get_docId ;;
  if negb (truthy_opt doc) then
    throw (str "docId is not set before calling updatePageMetadata()")
  else
    perform (MetadataUpdate (or_empty doc)) (PAGE_METADATA_update env (or_empty doc)).

(** The [try] block of [run]. *)
Definition run_steps (additionalPrompt : jsstring) : M result :=
  ok <- loadPageMetadata ;;
  if negb ok then
    ret (mkResult (str "URL not found in D1 PageMetadata") hardfail 404 None)
  else
    html <- getHtml ;;
    if negb (truthy_opt html) then
      ret (mkResult (str "HTML not found from R2") hardfail 404 None)
    else
      markdown <- writeMarkdown (or_empty html) additionalPrompt ;;
      if negb (truthy markdown) then
        ret (mkResult (str "Failed to generate markdown") hardfail 500 None)
      else
        storeMarkdown markdown ;;
        updatePageMetadata ;;
        ret (mkResult (str "Markdown saved to Knowledge Bucket") success 200
                      (Some markdown)).

(** [run]: the [catch] turns any exception of the block into a
    softfail carrying its message. *)
Definition run (additionalPrompt : jsstring) (s : wstate) : result * wstate :=
  match run_steps additionalPrompt s with
  | (Normal r, s') => (r, s')
  | (Throw e, s') => (mkResult e softfail 500 None, s')
  end.

(** A step of the orchestration raises [e], leaving the writer in
    state [s']; the steps before it completed normally and did not end
    the run. *)
Inductive step_raises (additionalPrompt : jsstring) (s0 : wstate)
  : jsstring -> wstate -> Prop :=
| raises_loadPageMetadata e s1 :
    loadPageMetadata s0 = (Throw e, s1) ->
    step_raises additionalPrompt s0 e s1
| raises_getHtml e s1 s2 :
    loadPageMetadata s0 = (Normal true, s1) ->
    getHtml s1 = (Throw e, s2) ->
    step_raises additionalPrompt s0 e s2
| raises_writeMarkdown e s1 s2 s3 html :
    loadPageMetadata s0 = (Normal true, s1) ->
    getHtml s1 = (Normal (Some html), s2) ->
    truthy html = true ->
    writeMarkdown html additionalPrompt s2 = (Throw e, s3) ->
    step_raises additionalPrompt s0 e s3
| raises_storeMarkdown e s1 s2 s3 s4 html markdown :
    loadPageMetadata s0 = (Normal true, s1) ->
    getHtml s1 = (Normal (Some html), s2) ->
    truthy html = true ->
    writeMarkdown html additionalPrompt s2 = (Normal markdown, s3) ->
    truthy markdown = true ->
    storeMarkdown markdown s3 = (Throw e, s4) ->
    step_raises additionalPrompt s0 e s4
| raises_updatePageMetadata e s1 s2 s3 s4 s5 html markdown :
    loadPageMetadata s0 = (Normal true, s1) ->
    getHtml s1 = (Normal (Some html), s2) ->
    truthy html = true ->
    writeMarkdown html additionalPrompt s2 = (Normal markdown, s3) ->
    truthy markdown = true ->
    storeMarkdown markdown s3 = (Normal tt, s4) ->
    updatePageMetadata s4 = (Throw e, s5) ->
    step_raises additionalPrompt s0 e s5.

End Writer.

(** The calls that write: to the knowledge bucket or to the metadata. *)
Definition is_write (c : call) : bool :=
  match c with
  | KnowledgePut _ _ | MetadataUpdate _ => true
  | _ => false
  end.

End BaseWriter.

(* ================================================================== *)
(** ** [LlamaWriter] *)
(* ================================================================== *)

Module LlamaWriter.
Import Dom Extractor Runtime.
Local Open Scope run_scope.

Definition DEFAULT_MAX_CHUNK_SIZE : number := 114688%Q.
Definition DEFAULT_MAX_TOKENS : number := 1024%Q.

(** The cleanup of [LlamaWriter.preprocessHTML]: scripts, stylesheets
    and inline image data. *)
Definition cleanup (doc : document) : document :=
  strip_scripts_styles_images doc.

Definition preprocessHTML (ch : Cheerio) (html : jsstring)
           (rules : list PreprocessHTMLRules) : preprocessed :=
  let doc := load ch html in
  let title := text (select (ByTag (str "title")) doc) in
  extract ch title (cleanup doc) rules.

(** The template literal of the system message is indented with eight
    spaces. *)
Definition messages (title : jsstring) (chunks : list jsstring)
           (additionalPrompt : jsstring) : list Prompt.message :=
  Prompt.messages (repeat SPACE 8) title chunks additionalPrompt.

(** [domain.replace(/^www\./g, "")] *)
Definition strip_www (domain : jsstring) : jsstring :=
  if starts_with (str "www.") domain then skipn 4 domain else domain.

Section Writer.
Variable env : Env.
Variable url : jsstring.
(** [new URL(url).hostname], computed by the constructor. *)
Variable domain : jsstring.
Variable maxTokens : number.
Variable maxChunkSize : number.

Definition getHtmlPreprocessRules : M (list PreprocessHTMLRules) :=
  let kvKey := str "domain:" ++ strip_www domain in
  htmlPreprocessRules <- perform (RulesGet kvKey) (HTML_PREPROCESS_get env kvKey) ;;
  if negb (truthy_opt htmlPreprocessRules) then ret []
  else lift (JSON_parse_rules env (or_empty htmlPreprocessRules)).

Definition splitHtml (html : jsstring) : list jsstring :=
  Splitter.splitHtml html maxChunkSize.

Definition generateMarkdown (title : jsstring) (chunks : list jsstring)
           (additionalPrompt : jsstring) : M jsstring :=
  let model := AI_MODEL env in
  let msgs := messages title chunks additionalPrompt in
  response <- perform (AiRun model msgs maxTokens) (AI_run env model msgs maxTokens) ;;
  let markdown := String_ (Runtime.response response) in
  ret markdown.

(** [processedHtml.reduce((acc, curr) => acc || curr.length > maxChunkSize, false)] *)
Definition any_too_long (processedHtml : list jsstring) : bool :=
  fold_left (fun acc curr => acc || length_gt curr maxChunkSize)
            processedHtml false.

Definition chunks_of (processedHtml : list jsstring) : list jsstring :=
  if any_too_long processedHtml
  then splitHtml (Prompt.join [NL; NL] processedHtml)
  else processedHtml.

Definition writeMarkdown (html additionalPrompt : jsstring) : M jsstring :=
  htmlPreprocessRules <- getHtmlPreprocessRules ;;
  let preprocessResult := preprocessHTML (cheerio env) html htmlPreprocessRules in
  let chunks := chunks_of (processedHtml preprocessResult) in
  generateMarkdown (title preprocessResult) chunks additionalPrompt.

Definition run (additionalPrompt : jsstring) (s : wstate) : result * wstate :=
  BaseWriter.run env url writeMarkdown additionalPrompt s.

End Writer.

End LlamaWriter.

(* ================================================================== *)
(** ** [GeminiWriter] *)
(* ================================================================== *)

Module GeminiWriter.
Import Dom Extractor Runtime.
Local Open Scope run_scope.

Definition DEFAULT_MAX_TOKENS : number := 1024%Q.

Definition cleanup (doc : document) : document :=
  strip_scripts_styles_images doc.

(** [GeminiWriter.preprocessHTML] takes no rules and returns the text of
    the whole document, [$.text()]. *)
Definition preprocessHTML (ch : Cheerio) (html : jsstring) : jsstring * jsstring :=
  let doc := load ch html in
  let title := text (select (ByTag (str "title")) doc) in
  (title, text (cleanup doc)).

Definition systemPrompts (title : jsstring) : list jsstring :=
  [ str "You will be given an HTML page and you will need to generate a markdown output. Generating simple and clear markdown in using original text only found in the HTML. Remove all links, images, and URLs. Do not repeat information.";
    str "Always start the markdown with the page title as level 1 heading. The page title is "
      ++ title ++ str "." ].

Section Writer.
Variable env : Env.
Variable url : jsstring.
Variable maxTokens : number.

(** Creating the client, the model and the chat session and sending
    the prompt are one exchange with the service. *)
Definition generateMarkdown (title html additionalPrompt : jsstring) : M jsstring :=
  perform (GeminiSend (systemPrompts title) maxTokens html additionalPrompt)
          (GOOGLE_AI_send env (systemPrompts title) maxTokens html additionalPrompt).

Definition writeMarkdown (html additionalPrompt : jsstring) : M jsstring :=
  let preprocessResult := preprocessHTML (cheerio env) html in
  generateMarkdown (fst preprocessResult) (snd preprocessResult) additionalPrompt.

Definition run (additionalPrompt : jsstring) (s : wstate) : result * wstate :=
  BaseWriter.run env url writeMarkdown additionalPrompt s.

End Writer.

End GeminiWriter.

(* ================================================================== *)
(** ** The entry points of the worker: [fetch] and [queue] (index.ts) *)
(* ================================================================== *)

Module Index.
Import Extractor Runtime.

(** [MarkdownModel] *)
Definition LLAMA : jsstring := str "llama-3.3".
Definition GEMINI_2_FLASH : jsstring := str "gemini-2.0-flash-exp".

(** [RequestBody]; an optional field that is absent is [None]. *)
Record RequestBody := mkBody {
  url : jsstring;
  additionalPrompt : option jsstring;
  model : option jsstring;
  maxChunkSize : option number;
  maxTokens : option number
}.

(** What the handler reads of a request: the [Authorization] header, the
    method, and how [request.json()] completes. *)
Record Request := mkRequest {
  authorization : option jsstring;
  method : jsstring;
  json : completion RequestBody
}.

(** The bindings of [Env] that the entry points use themselves, with the
    [URL] constructor, which raises on text that is not a URL. A secret
    that was never set reads as [undefined]: [API_TOKEN] is then [None].
    ([RETURN_MARKDOWN] is only compared with the text [true]; when it is
    not set it acts as any other text.) *)
Record Bindings := mkBindings {
  API_TOKEN : option jsstring;
  RETURN_MARKDOWN : jsstring;
  URL_hostname : jsstring -> completion jsstring;
  CREATE_MARKDOWN_QUEUE_send : RequestBody -> completion unit
}.

(** [Response.json({message, status, markdown?, request?}, {status})] *)
Record Response := mkReply {
  http_status : Z;
  message_field : jsstring;
  status_field : jsstring;
  markdown_field : option jsstring;
  request_field : option RequestBody
}.

(** What an entry point does to the outside: calls of a writer, a message
    sent to the queue, and the settling of a queued message. *)
Inductive effect :=
| Service (c : call)
| Enqueue (body : RequestBody)
| Ack (index : nat)
| Retry (index : nat).

(** [s.replace(pattern, replacement)] with a text pattern: the first
    occurrence only. *)
Fixpoint replace_first (pattern replacement s : jsstring) : jsstring :=
  if starts_with pattern s then replacement ++ skipn (length pattern) s
  else match s with
       | [] => []
       | c :: rest => c :: replace_first pattern replacement rest
       end.

(** [request.headers.get("Authorization")?.replace("Bearer ", "")] *)
Definition apiKey (req : Request) : option jsstring :=
  option_map (replace_first (str "Bearer ") []) (authorization req).

(** [apiKey === env.API_TOKEN]: two texts that are equal, or [undefined]
    on both sides. *)
Definition authorized (b : Bindings) (req : Request) : bool :=
  match apiKey req, API_TOKEN b with
  | Some key, Some token => jsstring_eqb key token
  | None, None => true
  | _, _ => false
  end.

(** The value of a parameter with a default: the default stands in for an
    absent argument. *)
Definition or_default {A} (x : option A) (d : A) : A :=
  match x with
  | Some v => v
  | None => d
  end.

Definition is_gemini (body : RequestBody) : bool :=
  match model body with
  | Some m => jsstring_eqb m GEMINI_2_FLASH
  | None => false
  end.

(** The [switch (body.model)] that constructs the writer; what is kept of
    the writer is its [writeMarkdown]. The constructor of [LlamaWriter]
    reads the host name of the URL. *)
Definition writer_for (env : Env) (b : Bindings) (body : RequestBody)
  : completion (jsstring -> jsstring -> M jsstring) :=
  if is_gemini body then
    Normal (GeminiWriter.writeMarkdown
              env (or_default (maxTokens body) GeminiWriter.DEFAULT_MAX_TOKENS))
  else
    match URL_hostname b (url body) with
    | Throw e => Throw e
    | Normal domain =>
        Normal (LlamaWriter.writeMarkdown
                  env domain
                  (or_default (maxTokens body) LlamaWriter.DEFAULT_MAX_TOKENS)
                  (or_default (maxChunkSize body) LlamaWriter.DEFAULT_MAX_CHUNK_SIZE))
    end.

(** [await writer.run(body.additionalPrompt || "")] on the new writer. *)
Definition run_writer (env : Env) (body : RequestBody)
           (writeMarkdown : jsstring -> jsstring -> M jsstring) : result * wstate :=
  BaseWriter.run env (url body) writeMarkdown (or_empty (additionalPrompt body)) fresh.

Definition status_name (s : status) : jsstring :=
  match s with
  | success => str "success"
  | hardfail => str "hardfail"
  | softfail => str "softfail"
  end.

Definition failed (code : Z) (message : jsstring) : Response :=
  mkReply code message (str "failed") None None.

(** The reply to a POST, from the result of the run. *)
Definition reply_of (b : Bindings) (r : result) : Response :=
  if jsstring_eqb (RETURN_MARKDOWN b) (str "true")
  then mkReply (code r) (message r) (status_name (status_of r)) (markdown r) None
  else mkReply (code r) (message r) (status_name (status_of r)) None None.

(** [fetch]: the reply, or the exception that leaves the handler, with the
    effects in the order they happened. *)
Definition fetch (env : Env) (b : Bindings) (req : Request)
  : completion Response * list effect :=
  if negb (authorized b req) then
    (Normal (failed 401 (str "Unauthorized")), [])
  else if negb (jsstring_eqb (method req) (str "POST"))
          && negb (jsstring_eqb (method req) (str "PUT")) then
    (Normal (failed 405 (str "Invalid request method")), [])
  else
    match json req with
    | Throw e => (Throw e, [])
    | Normal body =>
        if negb (truthy (url body)) then
          (Normal (failed 400 (str "URL parameter is missing")), [])
        else if jsstring_eqb (method req) (str "POST") then
          match writer_for env b body with
          | Throw e => (Throw e, [])
          | Normal writeMarkdown =>
              let '(r, s) := run_writer env body writeMarkdown in
              (Normal (reply_of b r), map Service (trace s))
          end
        else
          match CREATE_MARKDOWN_QUEUE_send b body with
          | Normal _ =>
              (Normal (mkReply 202 (str "Request Accepted") (str "success") None
                               (Some body)),
               [Enqueue body])
          | Throw _ =>
              (Normal (failed 500 (str "Failed to send message to queue")),
               [Enqueue body])
          end
    end.

(** [switch (result.status)] of the queue consumer. *)
Definition settle (index : nat) (s : status) : effect :=
  match s with
  | hardfail => Ack index
  | softfail => Retry index
  | success => Ack index
  end.

(** [for (const message of batch.messages)], from message number
    [index] on. *)
Fixpoint consume (env : Env) (b : Bindings) (messages : list RequestBody)
         (index : nat) : completion unit * list effect :=
  match messages with
  | [] => (Normal tt, [])
  | body :: rest =>
      match writer_for env b body with
      | Throw e => (Throw e, [])
      | Normal writeMarkdown =>
          let '(r, s) := run_writer env body writeMarkdown in
          let '(outcome, later) := consume env b rest (S index) in
          (outcome, map Service (trace s) ++ settle index (status_of r) :: later)
      end
  end.

Definition queue (env : Env) (b : Bindings) (batch : list RequestBody)
  : completion unit * list effect :=
  consume env b batch 0.

(** The settling effects among a list of effects. *)
Definition is_settling (e : effect) : bool :=
  match e with
  | Ack _ | Retry _ => true
  | _ => false
  end.

(** The status with which the run of a queued message ends, when its
    writer can be constructed. *)
Definition message_status (env : Env) (b : Bindings) (body : RequestBody)
  : option status :=
  match writer_for env b body with
  | Throw _ => None
  | Normal writeMarkdown => Some (status_of (fst (run_writer env body writeMarkdown)))
  end.

(** The settling of message number [index] with body [body]. *)
Definition settled (env : Env) (b : Bindings) (body : RequestBody) (index : nat)
  : effect :=
  match message_status env b body with
  | Some softfail => Retry index
  | _ => Ack index
  end.

End Index.

(* ================================================================== *)
(** ** The stand-alone worker: its steps and its [fetch] *)
(* ================================================================== *)

Module Standalone.
Import Extractor Prompt Runtime.
Local Open Scope run_scope.

(** [try { ... } catch (e) { throw new Error(message) }]: whatever is
    raised inside is replaced by an error with a fixed message. *)
Definition rethrow_as {A} (message : jsstring) (m : M A) : M A :=
  fun s =>
    match m s with
    | (Throw _, s') => (Throw message, s')
    | done => done
    end.

Definition getPageMetadata (env : Env) (url : jsstring)
  : M (option jsstring * option jsstring) :=
  rethrow_as (str "Failed to query from D1 PageMetadata")
    (pageMetadata <- perform (MetadataSelect url) (PAGE_METADATA_first env url) ;;
     match pageMetadata with
     | None => ret (None, None)
     | Some r => ret (Some (String_ (id r)), Some (String_ (r2_path r)))
     end).

Definition getHtml (env : Env) (r2Key : jsstring) : M (option jsstring) :=
  rethrow_as (str "Failed to get HTML from R2")
    (r2Obj <- perform (RawHtmlGet r2Key) (RAW_HTML_BUCKET_get env r2Key) ;;
     match r2Obj with
     | None => ret None
     | Some obj =>
         html <- perform (RawHtmlText r2Key) obj ;;
         ret (Some html)
     end).

Definition getHtmlPreprocessRules (env : Env) (domain : jsstring)
  : M (list PreprocessHTMLRules) :=
  rethrow_as (str "Failed to get HTML preprocessing rules from KV")
    (let kvKey := str "domain:" ++ LlamaWriter.strip_www domain in
     htmlPreprocessRules <- perform (RulesGet kvKey) (HTML_PREPROCESS_get env kvKey) ;;
     if negb (truthy_opt htmlPreprocessRules) then ret []
     else lift (JSON_parse_rules env (or_empty htmlPreprocessRules))).

(** [generateMarkdown] returns the markdown together with the messages. *)
Definition generateMarkdown (env : Env) (chunks : list jsstring)
           (title additionalPrompt : jsstring) (maxTokens : number)
  : M (jsstring * list Prompt.message) :=
  rethrow_as (str "Failed to generate markdown")
    (let model := AI_MODEL env in
     let msgs := Worker.messages title chunks additionalPrompt in
     response <- perform (AiRun model msgs maxTokens) (AI_run env model msgs maxTokens) ;;
     ret (String_ (Runtime.response response), msgs)).

Definition storeMarkdownAndUpdatePageMetadata (env : Env)
           (docId r2Key markdown : jsstring) : M unit :=
  rethrow_as (str "Failed to store markdown in Knowledge Bucket")
    (perform (KnowledgePut r2Key markdown) (KNOWLEDGE_BUCKET_put env r2Key markdown)) ;;
  rethrow_as (str "Failed to update PageMetadata")
    (perform (MetadataUpdate docId) (PAGE_METADATA_update env docId)).

(** [x || d] for an optional number: the default stands in for an absent
    value and for 0. *)
Definition or_nonzero (x : option number) (d : number) : number :=
  match x with
  | Some v => if Qeq_bool v 0 then d else v
  | None => d
  end.

(** [Response.json({message, status, markdown?, messages?}, {status})] *)
Record Reply := mkReply {
  http_status : Z;
  message_field : jsstring;
  status_field : jsstring;
  markdown_field : option jsstring;
  messages_field : option (list Prompt.message)
}.

Definition failed (code : Z) (message : jsstring) : Reply :=
  mkReply code message (str "failed") None None.

(** The chunks handed to [generateMarkdown]. *)
Definition chunks_of (maxChunkSize : number) (processedHtml : list jsstring) : list jsstring :=
  if fold_left (fun acc (curr : jsstring) =>
                  acc || length_gt curr maxChunkSize)
               processedHtml false
  then Worker.splitHtml (join [NL; NL] processedHtml) maxChunkSize
  else processedHtml.

(** The [try] block of [fetch]. *)
Definition serve (env : Env) (b : Index.Bindings) (reqUrl domain : jsstring)
           (maxChunkSize maxTokens : number) (additionalPrompt : jsstring) : M Reply :=
  keys <- getPageMetadata env reqUrl ;;
  let '(docId, r2Key) := keys in
  if negb (truthy_opt docId) || negb (truthy_opt r2Key) then
    ret (failed 404 (str "URL is not in the database"))
  else
    html <- getHtml env (or_empty r2Key) ;;
    if negb (truthy_opt html) then
      ret (failed 404 (str "HTML not found from R2"))
    else
      htmlPreprocessRules <- getHtmlPreprocessRules env domain ;;
      let preprocessResult :=
        Worker.preprocessHTML (cheerio env) (or_empty html) htmlPreprocessRules in
      let chunks := chunks_of maxChunkSize (processedHtml preprocessResult) in
      generated <- generateMarkdown env chunks (title preprocessResult)
                                    additionalPrompt maxTokens ;;
      let '(markdown, messages) := generated in
      storeMarkdownAndUpdatePageMetadata env (or_empty docId) (or_empty r2Key) markdown ;;
      if jsstring_eqb (Index.RETURN_MARKDOWN b) (str "true") then
        ret (mkReply 200 (str "Markdown saved to Knowledge Bucket") (str "success")
                     (Some markdown) (Some messages))
      else
        ret (mkReply 200 (str "Markdown saved to Knowledge Bucket") (str "success")
                     None None).

(** [fetch]: the reply, or the exception that leaves the handler, with the
    calls made. The [catch] of the block answers 500 with the message of
    the exception. *)
Definition fetch (env : Env) (b : Index.Bindings) (req : Index.Request)
  : completion Reply * list call :=
  if negb (Index.authorized b req) then
    (Normal (failed 401 (str "Unauthorized")), [])
  else if negb (jsstring_eqb (Index.method req) (str "POST")) then
    (Normal (failed 405 (str "Invalid request method")), [])
  else
    match Index.json req with
    | Throw e => (Throw e, [])
    | Normal body =>
        let reqUrl := Index.url body in
        let maxChunkSize := or_nonzero (Index.maxChunkSize body) Worker.DEFAULT_MAX_CHUNK_SIZE in
        let maxTokens := or_nonzero (Index.maxTokens body) Worker.DEFAULT_MAX_TOKENS in
        let additionalPrompt := or_empty (Index.additionalPrompt body) in
        if negb (truthy reqUrl) then
          (Normal (failed 400 (str "URL is required")), [])
        else
          match Index.URL_hostname b reqUrl with
          | Throw e => (Throw e, [])
          | Normal domain =>
              match serve env b reqUrl domain maxChunkSize maxTokens additionalPrompt
                          fresh with
              | (Normal reply, s) => (Normal reply, trace s)
              | (Throw e, s) => (Normal (failed 500 e), trace s)
              end
          end
    end.

(** The messages with which the functions of this worker report a
    failure. *)
Definition failure_messages : list jsstring :=
  [ str "Failed to query from D1 PageMetadata";
    str "Failed to get HTML from R2";
    str "Failed to get HTML preprocessing rules from KV";
    str "Failed to preprocess HTML";
    str "Failed to generate markdown";
    str "Failed to store markdown in Knowledge Bucket";
    str "Failed to update PageMetadata" ].

(** The trace after a step is the trace before it, extended. *)
Definition extends (s s' : wstate) : Prop := exists t, trace s' = trace s ++ t.

End Standalone.

(* ================================================================== *)
(** ** The first [preprocessHTML]: rules given as text *)
(* ================================================================== *)

Module Legacy.
Import Dom Extractor.

(** [s.split(separator)] for a separator that is not empty. [skip]
    counts the characters of a separator still to be passed over, [piece]
    is the piece under way. *)
Fixpoint split_from (separator s : jsstring) (skip : nat) (piece : jsstring)
  : list jsstring :=
  match s with
  | [] => [piece]
  | c :: rest =>
      match skip with
      | S k => split_from separator rest k piece
      | 0 =>
          if starts_with separator s
          then piece :: split_from separator rest (length separator - 1) []
          else split_from separator rest 0 (piece ++ [c])
      end
  end.

Definition split (separator s : jsstring) : list jsstring :=
  split_from separator s 0 [].

(** [for (const selector of selectors)]: the HTML of the first match of
    each selector is pushed when it is not empty. A selector that makes
    [$] raise ends the loop, through the [catch] around the rule. *)
Fixpoint each_selector (ch : Cheerio) (doc : document) (selectors : list jsstring)
         (processedHtml : list jsstring) : list jsstring :=
  match selectors with
  | [] => processedHtml
  | selector :: rest =>
      match query ch doc (Some selector) with
      | Throw _ => processedHtml
      | Normal selected =>
          let selectedHtml := sel_html ch doc selected in
          if truthy (or_empty selectedHtml)
          then each_selector ch doc rest (processedHtml ++ [or_empty selectedHtml])
          else each_selector ch doc rest processedHtml
      end
  end.

(** The body of [for (const ruleArr of rules)]. A line [css] without
    [::] makes [paramStr.split] raise, which the [catch] swallows. *)
Definition each_rule (ch : Cheerio) (doc : document) (processedHtml : list jsstring)
           (ruleArr : jsstring) : list jsstring :=
  match split (str "::") ruleArr with
  | ruleType :: rest =>
      if jsstring_eqb ruleType (str "css") then
        match rest with
        | paramStr :: _ => each_selector ch doc (split (str "||") paramStr) processedHtml
        | [] => processedHtml
        end
      else processedHtml
  | [] => processedHtml
  end.

Definition preprocessHTML (ch : Cheerio) (doc : document) (rulesStr : jsstring)
  : list jsstring :=
  fold_left (each_rule ch doc) (split [NL] rulesStr) [].

(** The selectors named by the css lines of a rule text. *)
Definition selectors_of (ruleArr : jsstring) : list jsstring :=
  match split (str "::") ruleArr with
  | ruleType :: paramStr :: _ =>
      if jsstring_eqb ruleType (str "css") then split (str "||") paramStr else []
  | _ => []
  end.

End Legacy.

(* ================================================================== *)
(** ** Concrete services for the scenarios of the specification *)
(* ================================================================== *)

Module Scenarios.
Import Dom Extractor ExtractorSpec Prompt Runtime.

(** A parser that knows one page, and a selector engine that finds
    nothing. *)
Definition one_page : Cheerio :=
  mkCheerio (fun _ => styled_paragraph)
            unit
            (fun _ _ => Normal tt)
            (fun _ => 0)
            (fun doc _ _ => Normal doc)
            (fun _ _ => None).

(** Services that all answer, apart from the metadata lookup and the
    model, which are given. *)
Definition services (lookup : completion (option row))
           (model : completion ai_response) : Env :=
  mkEnv (str "llama-3.3")
        (fun _ _ _ => model)
        (fun _ _ _ _ => Normal (str "# x"))
        (fun _ => lookup)
        (fun _ => Normal tt)
        (fun _ => Normal None)
        (fun _ => Normal (Some (Normal (str "<p style=color:red>x</p>"))))
        (fun _ _ => Normal tt)
        one_page
        (fun _ => Normal []).

(** The number 7, which [String] renders as the one digit. *)
Definition seven : value := VNumber 55%N [].

Definition known_page : completion (option row) :=
  Normal (Some (mkRow seven (VString (str "pages/7")))).

Definition the_url : jsstring := str "https://www.example.com/a".
Definition the_domain : jsstring := str "www.example.com".

(** Scenario C: the page is unknown. *)
Definition unknown_url : Env :=
  services (Normal None) (Normal (mkResponse (VString (str "# x")))).

(** Scenario D: the generation service raises. *)
Definition model_down : Env :=
  services known_page (Throw (str "model unavailable")).

(** The model answers with [null] in its [response] field. *)
Definition model_null : Env :=
  services known_page (Normal (mkResponse VNull)).

(** The model answers with an empty array in its [response] field. *)
Definition model_empty_list : Env :=
  services known_page (Normal (mkResponse (VArray []))).

(** The writer after the model call of Scenario D has failed: metadata
    loaded, and the five calls made up to and including the model call. *)
Definition after_model_failure : wstate :=
  mkWstate (Some (str "7")) (Some (str "pages/7"))
           [MetadataSelect the_url;
            RawHtmlGet (str "pages/7.html");
            RawHtmlText (str "pages/7.html");
            RulesGet (str "domain:example.com");
            AiRun (str "llama-3.3")
                  (LlamaWriter.messages (str "") [str "x"] (str "")) 1024].

(** The states a run goes through when the model answers [null]. *)
Definition metadata_loaded : wstate :=
  mkWstate (Some (str "7")) (Some (str "pages/7")) [MetadataSelect the_url].

Definition content_loaded : wstate :=
  mkWstate (Some (str "7")) (Some (str "pages/7"))
           (trace metadata_loaded
              ++ [RawHtmlGet (str "pages/7.html"); RawHtmlText (str "pages/7.html")]).

Definition rules_loaded : wstate :=
  mkWstate (Some (str "7")) (Some (str "pages/7"))
           (trace content_loaded ++ [RulesGet (str "domain:example.com")]).

Definition null_stored : wstate :=
  mkWstate (Some (str "7")) (Some (str "pages/7"))
           (trace rules_loaded
              ++ [AiRun (str "llama-3.3")
                        (LlamaWriter.messages (str "") [str "x"] (str "")) 1024;
                  KnowledgePut (str "pages/7.md") (str "null")]).

Definition null_reported : wstate :=
  mkWstate (Some (str "7")) (Some (str "pages/7"))
           (trace null_stored ++ [MetadataUpdate (str "7")]).

End Scenarios.

Module MoreScenarios.
Import Extractor Runtime Scenarios Index.

(** A Gemini model that answers with the empty text. *)
Definition gemini_silent : Env :=
  mkEnv (str "llama-3.3")
        (fun _ _ _ => Normal (mkResponse (VString (str "# x"))))
        (fun _ _ _ _ => Normal [])
        (fun _ => known_page)
        (fun _ => Normal tt)
        (fun _ => Normal None)
        (fun _ => Normal (Some (Normal (str "<p style=color:red>x</p>"))))
        (fun _ _ => Normal tt)
        one_page
        (fun _ => Normal []).

(** The raw bucket has no object for the page. *)
Definition page_not_stored : Env :=
  mkEnv (str "llama-3.3")
        (fun _ _ _ => Normal (mkResponse (VString (str "# x"))))
        (fun _ _ _ _ => Normal (str "# x"))
        (fun _ => known_page)
        (fun _ => Normal tt)
        (fun _ => Normal None)
        (fun _ => Normal None)
        (fun _ _ => Normal tt)
        one_page
        (fun _ => Normal []).

(** Everything answers, but the metadata update raises. *)
Definition update_fails : Env :=
  mkEnv (str "llama-3.3")
        (fun _ _ _ => Normal (mkResponse (VString (str "# x"))))
        (fun _ _ _ _ => Normal (str "# x"))
        (fun _ => known_page)
        (fun _ => Throw (str "D1 is busy"))
        (fun _ => Normal None)
        (fun _ => Normal (Some (Normal (str "<p style=color:red>x</p>"))))
        (fun _ _ => Normal tt)
        one_page
        (fun _ => Normal []).

(** Everything answers. *)
Definition all_well : Env :=
  services known_page (Normal (mkResponse (VString (str "# x")))).


(** The metadata row has a null path. *)
Definition null_path : Env :=
  services (Normal (Some (mkRow seven VNull)))
           (Normal (mkResponse (VString (str "# x")))).

(** The states of a run in which the model answers [# x]. *)
Definition generated : wstate :=
  mkWstate (Some (str "7")) (Some (str "pages/7"))
           (trace rules_loaded
              ++ [AiRun (str "llama-3.3")
                        (LlamaWriter.messages (str "") [str "x"] (str "")) 1024]).

Definition stored : wstate :=
  mkWstate (Some (str "7")) (Some (str "pages/7"))
           (trace generated ++ [KnowledgePut (str "pages/7.md") (str "# x")]).

Definition update_attempted : wstate :=
  mkWstate (Some (str "7")) (Some (str "pages/7"))
           (trace stored ++ [MetadataUpdate (str "7")]).

(** The bindings of a worker whose token is [secret] and which returns
    the markdown; every url has the host name [www.example.com]. *)
Definition bindings : Bindings :=
  mkBindings (Some (str "secret")) (str "true")
             (fun _ => Normal the_domain)
             (fun _ => Normal tt).

(** The same worker with a [URL] constructor that accepts nothing. *)
Definition strict_bindings : Bindings :=
  mkBindings (Some (str "secret")) (str "true")
             (fun _ => Throw (str "Invalid URL"))
             (fun _ => Normal tt).

Definition page_body : RequestBody := mkBody the_url None None None None.

Definition gemini_body : RequestBody :=
  mkBody the_url None (Some GEMINI_2_FLASH) None None.

Definition post_request : Request :=
  mkRequest (Some (str "Bearer secret")) (str "POST") (Normal page_body).

End MoreScenarios.

(* ================================================================== *)
(** ** Properties of the Chunk Splitter *)
(* ================================================================== *)

Module SplitterFacts.
Import Splitter SplitterSpec.

(** *** List and string helpers *)

Lemma char_eqb_eq (a b : char) : char_eqb a b = true <-> a = b.
Proof. unfold char_eqb. apply N.eqb_eq. Qed.

Lemma lastIndexOf_some c s i :
  lastIndexOf c s = Some i -> nth_error s i = Some c.
Proof.
  revert i. induction s as [|x s IH]; intros i; simpl; [discriminate|].
  destruct (lastIndexOf c s) as [j|] eqn:E.
  - intros [= <-]. simpl. now apply IH.
  - destruct (char_eqb x c) eqn:Ex; [|discriminate].
    intros [= <-]. simpl. apply char_eqb_eq in Ex. now subst.
Qed.

Lemma split_index_le cur : split_index cur <= length cur.
Proof.
  unfold split_index. destruct (lastIndexOf SPACE cur) as [i|] eqn:E; [|lia].
  apply lastIndexOf_some in E.
  assert (i < length cur); [|lia].
  apply nth_error_Some. congruence.
Qed.

(** A space is never found inside a space-free prefix. *)
Lemma split_index_after_prefix pre rest :
  ~ In SPACE pre -> length pre <= split_index (pre ++ rest).
Proof.
  intros Hpre. unfold split_index.
  destruct (lastIndexOf SPACE (pre ++ rest)) as [i|] eqn:E.
  - apply lastIndexOf_some in E.
    destruct (Nat.lt_ge_cases i (length pre)) as [Hlt|]; [|assumption].
    rewrite nth_error_app1 in E by assumption.
    exfalso. apply Hpre. eapply nth_error_In; eassumption.
  - rewrite length_app. lia.
Qed.

Lemma slice_to_keeps_prefix pre rest :
  ~ In SPACE pre ->
  exists kept, slice_to (split_index (pre ++ rest)) (pre ++ rest) = pre ++ kept.
Proof.
  intros Hpre. pose proof (split_index_after_prefix pre rest Hpre) as Hle.
  unfold slice_to. rewrite firstn_app.
  exists (firstn (split_index (pre ++ rest) - length pre) rest).
  f_equal. apply firstn_all2. assumption.
Qed.

(** *** Names on the stack contain no space *)

Lemma name_chars_nospace s : ~ In SPACE (name_chars s).
Proof.
  induction s as [|c s IH]; simpl; [tauto|].
  destruct (char_eqb c SPACE) eqn:E; simpl; [tauto|].
  destruct (char_eqb c GT); simpl; [tauto|].
  intros [H|H]; [|tauto].
  subst c. unfold char_eqb in E. now rewrite N.eqb_refl in E.
Qed.

Lemma tag_name_nospace tc n : tag_name tc = Some n -> ~ In SPACE n.
Proof.
  destruct tc as [|c s]; simpl; [discriminate|].
  destruct (char_eqb c LT); [|discriminate].
  pose proof (name_chars_nospace s) as H.
  destruct (name_chars s); [discriminate|].
  now intros [= <-].
Qed.

Lemma removelast_names_ok stack : names_ok stack -> names_ok (removelast stack).
Proof.
  unfold names_ok. induction 1 as [|x l Hx Hl IH]; simpl; [constructor|].
  destruct l; [constructor|]. constructor; assumption.
Qed.

Lemma update_stack_names_ok tc stack :
  names_ok stack -> names_ok (update_stack tc stack).
Proof.
  intros H. unfold update_stack.
  destruct (is_closing tc); [now apply removelast_names_ok|].
  destruct (is_self_closing tc); simpl; [assumption|].
  destruct (tag_name tc) as [n|] eqn:E; [|assumption].
  apply Forall_app. split; [assumption|].
  constructor; [|constructor]. eapply tag_name_nospace; eassumption.
Qed.

Lemma open_tags_nospace stack : names_ok stack -> ~ In SPACE (open_tags stack).
Proof.
  unfold open_tags. induction 1 as [|x l Hx Hl IH]; simpl; [tauto|].
  rewrite in_app_iff. unfold open_tag at 1. simpl. rewrite in_app_iff. simpl.
  intuition discriminate.
Qed.

(** *** Chunk boundaries *)

Lemma scan_snoc maxChunkSize l c :
  scan maxChunkSize (l ++ [c]) = step maxChunkSize (scan maxChunkSize l) c.
Proof. unfold scan. now rewrite fold_left_app. Qed.

Lemma boundary_at_extend maxChunkSize l c k stack :
  boundary_at maxChunkSize l k stack ->
  boundary_at maxChunkSize (l ++ [c]) k stack.
Proof.
  intros (p & c0 & q & -> & H1 & H2 & H3).
  exists p, c0, (q ++ [c]). rewrite <- app_assoc. simpl. auto.
Qed.

Lemma balanced_extend maxChunkSize l c k c1 c2 :
  balanced maxChunkSize l k c1 c2 ->
  balanced maxChunkSize (l ++ [c]) k c1 c2.
Proof.
  intros (stack & body & rest & Hb & H1 & H2).
  exists stack, body, rest. auto using boundary_at_extend.
Qed.

(** Consecutive pairs of a list extended by one element. *)
Lemma pairs_snoc {A} (P : nat -> A -> A -> Prop) (l : list A) (x : A) :
  (forall k a b, nth_error l k = Some a -> nth_error l (S k) = Some b -> P k a b) ->
  (forall pre a, l = pre ++ [a] -> P (length pre) a x) ->
  forall k a b,
    nth_error (l ++ [x]) k = Some a -> nth_error (l ++ [x]) (S k) = Some b ->
    P k a b.
Proof.
  intros Hold Hnew k a b Ha Hb.
  destruct (Nat.lt_ge_cases (S k) (length l)) as [Hlt|Hge].
  - rewrite nth_error_app1 in Ha, Hb by lia. eauto.
  - assert (Hlen : S k < length (l ++ [x])) by (apply nth_error_Some; congruence).
    rewrite length_app in Hlen. simpl in Hlen.
    assert (Hk : S k = length l) by lia.
    rewrite nth_error_app1 in Ha by lia.
    rewrite nth_error_app2, Hk, Nat.sub_diag in Hb by lia.
    simpl in Hb. injection Hb as <-.
    destruct (@exists_last _ l) as (pre & a' & ->).
    { intros ->. simpl in Hk. discriminate. }
    rewrite length_app in Hk. simpl in Hk.
    assert (Hkp : k = length pre) by lia. subst k.
    rewrite nth_error_app2, Nat.sub_diag in Ha by lia.
    simpl in Ha. injection Ha as <-. eauto.
Qed.

Lemma inv_init maxChunkSize : inv maxChunkSize [] init.
Proof.
  split; simpl.
  - constructor.
  - intros k c1 c2 H. destruct k; discriminate.
  - intros pre c1 H. destruct pre; discriminate.
Qed.

Lemma inv_step maxChunkSize l c :
  inv maxChunkSize l (scan maxChunkSize l) ->
  inv maxChunkSize (l ++ [c]) (scan maxChunkSize (l ++ [c])).
Proof.
  intros [Hn Hp Hl].
  assert (Hkeep : forall pre c1 extra st',
             chunks st' = chunks (scan maxChunkSize l) ->
             currentChunk st' = currentChunk (scan maxChunkSize l) ++ extra ->
             chunks st' = pre ++ [c1] ->
             exists stack body rest,
               boundary_at maxChunkSize (l ++ [c]) (length pre) stack /\
               names_ok stack /\
               c1 = body ++ close_tags stack /\
               currentChunk st' = open_tags stack ++ rest).
  { intros pre c1 extra st' Hc Hcur Hpre. rewrite Hc in Hpre.
    destruct (Hl _ _ Hpre) as (stack & body & rest & Hb & Hs & H1 & H2).
    exists stack, body, (rest ++ extra).
    rewrite Hcur, H2, app_assoc. auto using boundary_at_extend. }
  assert (Hpairs : forall k c1 c2,
             nth_error (chunks (scan maxChunkSize l)) k = Some c1 ->
             nth_error (chunks (scan maxChunkSize l)) (S k) = Some c2 ->
             balanced maxChunkSize (l ++ [c]) k c1 c2)
    by eauto using balanced_extend.
  pose proof (scan_snoc maxChunkSize l c) as Hscan.
  remember (scan maxChunkSize l) as st eqn:Hst.
  unfold step in Hscan.
  destruct (char_eqb c LT).
  { rewrite Hscan. split; simpl; auto.
    intros pre c1 H. apply (Hkeep pre c1 [] (mkState (chunks st) (currentChunk st) (tagStack st) true [c]));
      simpl; auto using app_nil_r. now rewrite app_nil_r. }
  destruct (inTag st) eqn:Hin.
  { destruct (char_eqb c GT).
    - rewrite Hscan. split; simpl; auto using update_stack_names_ok.
      intros pre c1 H.
      apply (Hkeep pre c1 (tagContent st ++ [c])
               (mkState (chunks st) (currentChunk st ++ tagContent st ++ [c])
                        (update_stack (tagContent st ++ [c]) (tagStack st)) false []));
        simpl; auto.
    - rewrite Hscan. split; simpl; auto.
      intros pre c1 H.
      apply (Hkeep pre c1 []
               (mkState (chunks st) (currentChunk st) (tagStack st) (inTag st)
                        (tagContent st ++ [c])));
        simpl; auto. now rewrite app_nil_r. }
  simpl in Hscan.
  destruct (reached (currentChunk st ++ [c]) maxChunkSize) eqn:Hr; simpl in Hscan.
  - (* a chunk is emitted *)
    unfold emit in Hscan. simpl in Hscan.
    assert (Hb : boundary_at maxChunkSize (l ++ [c]) (length (chunks st)) (tagStack st)).
    { exists l, c, []. rewrite <- Hst, Hscan. simpl.
      rewrite length_app. simpl. repeat split; auto. lia. }
    rewrite Hscan. split; simpl; auto.
    + apply pairs_snoc; auto.
      intros pre a Hpre.
      destruct (Hl _ _ Hpre) as (stack & body & rest & Hb' & Hs & H1 & H2).
      rewrite H2, <- app_assoc.
      destruct (slice_to_keeps_prefix (open_tags stack) (rest ++ [c])
                  (open_tags_nospace stack Hs)) as (kept & Hk).
      exists stack, body, (kept ++ close_tags (tagStack st)).
      rewrite Hk, <- app_assoc. auto using boundary_at_extend.
    + intros pre c1 H. apply app_inj_tail in H as [<- <-].
      eexists (tagStack st), _, _. repeat split; eauto.
  - rewrite Hscan. split; simpl; auto.
    intros pre c1 H.
    apply (Hkeep pre c1 [c]
             (mkState (chunks st) (currentChunk st ++ [c]) (tagStack st) (inTag st)
                      (tagContent st)));
      simpl; auto.
Qed.

Lemma inv_scan maxChunkSize l : inv maxChunkSize l (scan maxChunkSize l).
Proof.
  induction l as [|c l IH] using rev_ind.
  - apply inv_init.
  - now apply inv_step.
Qed.

(** *** The claims about [splitHtml] *)

(** C1 (the code departs from the claim): at a size boundary the new
    accumulator is the reopened tags followed by a slice of those reopened
    tags, not by the rest of the previous accumulator. On the input
    [ab cd] with maximum 4 the boundary falls after [ab c]: the chunk [ab]
    is emitted, the accumulator restarts empty, and the final result has
    lost the characters [ c]. On [<a b><i>x] with maximum 9 the split index
    is 2 and the new accumulator is [<a><i>] followed by its own tail
    [><i>]. *)
Theorem splitHtml_drops_remainder :
  currentChunk (scan 4 (str "ab ")) = str "ab " /\
  split_index (str "ab c") = 2 /\
  slice_from 2 (str "ab c") = str " c" /\
  currentChunk (scan 4 (str "ab c")) = [] /\
  splitHtml (str "ab cd") 4 = [str "ab"; str "d"] /\
  currentChunk (scan 9 (str "<a b><i>x")) = str "<a><i>><i>".
Proof. vm_compute. repeat split; reflexivity. Qed.

(** The general form of the accumulator after a boundary, for C1. *)
Lemma emit_accumulator st cur :
  currentChunk (emit st cur) =
  open_tags (tagStack st) ++ slice_from (split_index cur) (open_tags (tagStack st)).
Proof. reflexivity. Qed.

(** C2 (the code departs from the claim): the backward search for a space
    looks through tag tokens already appended. On [<a b/>x] with maximum 1
    the space inside the tag is chosen and the only chunk returned is
    [<a], which ends inside an unterminated tag token. *)
Theorem splitHtml_splits_inside_tag :
  splitHtml (str "<a b/>x") 1 = [str "<a"] /\
  existsb unterminated_tag (splitHtml (str "<a b/>x") 1) = true.
Proof. vm_compute. split; reflexivity. Qed.

(** What the loop does at every boundary, in terms of its own stack: a
    chunk that is not the last was emitted at a boundary of the loop; it
    ends with the closing tags of the tag stack at that boundary, last
    pushed first, and the chunk after it starts with the opening tags of
    the same stack, first pushed first. *)
Lemma splitHtml_boundaries_balanced html maxChunkSize k c1 c2 :
  nth_error (splitHtml html maxChunkSize) k = Some c1 ->
  nth_error (splitHtml html maxChunkSize) (S k) = Some c2 ->
  balanced maxChunkSize html k c1 c2.
Proof.
  unfold splitHtml, finish.
  destruct (inv_scan maxChunkSize html) as [_ Hp Hl].
  destruct (truthy (currentChunk (scan maxChunkSize html))); [|apply Hp].
  apply pairs_snoc; [assumption|].
  intros pre a Hpre.
  destruct (Hl _ _ Hpre) as (stack & body & rest & Hb & _ & H1 & H2).
  exists stack, body, rest. auto.
Qed.

Lemma splitHtml_boundaries_balanced_witness :
  balanced 20 (str "<div><p>Hello world this is a test</p></div>") 0
           (str "<div><p>Hello world</p></div>")
           (str "<div><p>this is a</p></div>").
Proof.
  apply (splitHtml_boundaries_balanced
           (str "<div><p>Hello world this is a test</p></div>") 20 0);
    vm_compute; reflexivity.
Defined.

(** C3 (the code departs from the claim): the tag stack is not the list
    of elements left open. An opening tag that needs no closing tag, such
    as [<br>], is pushed like any other, and a closing tag removes the top
    entry whatever its name. In
    [<p>one<br>two</p>three four five six seven] no element is open after
    [</p>], but with maximum 24 the stack of the loop is [p; br] after
    [<br>] and [p] after [</p>]. The boundary falls in the text after
    [</p>]: the first chunk closes [p] a second time and the second chunk
    reopens it. *)
Theorem splitHtml_closes_element_not_open :
  let before := [Open (str "p"); Chars (str "one"); Void (str "br");
                 Chars (str "two"); Close (str "p")] in
  let html := render (before ++ [Chars (str "three four five six seven")]) in
  html = str "<p>one<br>two</p>three four five six seven" /\
  open_elements before = [] /\
  tagStack (scan 24 (str "<p>one<br>")) = [str "p"; str "br"] /\
  tagStack (scan 24 (render before)) = [str "p"] /\
  chunks (scan 24 (render before ++ str "three ")) = [] /\
  chunks (scan 24 (render before ++ str "three f"))
  = [str "<p>one<br>two</p>three</p>"] /\
  splitHtml html 24
  = [str "<p>one<br>two</p>three</p>"; str "<p>our five six seven"].
Proof. vm_compute. repeat split; reflexivity. Qed.

(** The size test succeeds on every accumulator when the bound is not
    positive. *)
Lemma reached_nonpositive cur maxChunkSize :
  (maxChunkSize <= 0)%Q -> reached cur maxChunkSize = true.
Proof.
  intros Hmax. unfold reached, length_ge, units. apply Qle_bool_iff.
  apply Qle_trans with (inject_Z 0); [exact Hmax|].
  rewrite <- Zle_Qle. lia.
Qed.

(** With a bound that is not positive the loop emits one chunk at every
    character that it appends outside a tag token, from any state. *)
Lemma nonpositive_emits_from maxChunkSize html st :
  (maxChunkSize <= 0)%Q ->
  length (chunks (fold_left (step maxChunkSize) html st))
  = length (chunks st) + appended_outside (inTag st) html.
Proof.
  intros Hmax. revert st. induction html as [|c rest IH]; intros st; simpl.
  - lia.
  - rewrite IH. unfold step.
    destruct (char_eqb c LT); [reflexivity|].
    destruct (inTag st) eqn:Hin.
    + destruct (char_eqb c GT); reflexivity.
    + rewrite reached_nonpositive by exact Hmax. simpl.
      rewrite length_app. simpl. lia.
Qed.

(** C4, the claim as stated fails: with maximum 0 the call is not
    rejected; it returns the chunks produced by the loop. *)
Lemma splitHtml_zero_not_rejected :
  (0 <= 0)%Q /\
  rejected (splitHtml_completion (str "ab") 0) = false /\
  splitHtml_completion (str "ab") 0 = Normal [str "a"; str "b"].
Proof. vm_compute. repeat split; try reflexivity. discriminate. Qed.

(** C4 (amended): for a maximum chunk size <= 0 the call is not rejected.
    It completes normally after running the character loop, in which the
    size test succeeds at every character appended outside a tag token:
    the loop emits one chunk at each such character, and these chunks
    are the first of the list returned. *)
Theorem splitHtml_nonpositive_emits html maxChunkSize :
  (maxChunkSize <= 0)%Q ->
  rejected (splitHtml_completion html maxChunkSize) = false /\
  length (chunks (scan maxChunkSize html)) = appended_outside false html /\
  firstn (appended_outside false html) (splitHtml html maxChunkSize)
  = chunks (scan maxChunkSize html).
Proof.
  intros Hmax.
  assert (Hcount : length (chunks (scan maxChunkSize html))
                   = appended_outside false html).
  { unfold scan. rewrite nonpositive_emits_from by exact Hmax. reflexivity. }
  split; [reflexivity|]. split; [exact Hcount|].
  unfold splitHtml, finish. rewrite <- Hcount.
  destruct (truthy (currentChunk (scan maxChunkSize html))).
  - rewrite firstn_app, Nat.sub_diag, firstn_all. cbn [firstn]. apply app_nil_r.
  - apply firstn_all.
Qed.

Lemma splitHtml_nonpositive_emits_witness :
  rejected (splitHtml_completion (str "<b>a c</b>") (-1)) = false /\
  length (chunks (scan (-1) (str "<b>a c</b>"))) = 3 /\
  firstn 3 (splitHtml (str "<b>a c</b>") (-1)) = chunks (scan (-1) (str "<b>a c</b>")).
Proof.
  apply (splitHtml_nonpositive_emits (str "<b>a c</b>") (-1)).
  vm_compute. discriminate.
Defined.

End SplitterFacts.

(* ================================================================== *)
(** ** Properties of the extractor's cleanup *)
(* ================================================================== *)

Module ExtractorFacts.
Import Dom Extractor ExtractorSpec.

Lemma jsstring_eqb_eq a b : jsstring_eqb a b = true <-> a = b.
Proof.
  revert b. induction a as [|x a IH]; intros [|y b]; simpl;
    try (split; [discriminate|discriminate]); try tauto.
  rewrite andb_true_iff, IH. unfold char_eqb. rewrite N.eqb_eq.
  split; [intros [-> ->]; reflexivity|intros [= -> ->]; auto].
Qed.

Lemma existsb_flat_map {A B} (f : B -> bool) (g : A -> list B) l :
  existsb f (flat_map g l) = existsb (fun x => existsb f (g x)) l.
Proof.
  induction l as [|x l IH]; simpl; [reflexivity|].
  now rewrite existsb_app, IH.
Qed.

Lemma existsb_map {A B} (f : B -> bool) (g : A -> B) l :
  existsb f (map g l) = existsb (fun x => f (g x)) l.
Proof. induction l as [|x l IH]; simpl; [reflexivity|]. now rewrite IH. Qed.

Lemma existsb_all_false {A} (f : A -> bool) l :
  Forall (fun x => f x = false) l -> existsb f l = false.
Proof. induction 1 as [|x l Hx _ IH]; simpl; [reflexivity|]. now rewrite Hx, IH. Qed.

Lemma existsb_false_all {A} (f : A -> bool) l :
  existsb f l = false -> Forall (fun x => f x = false) l.
Proof.
  induction l as [|x l IH]; simpl; [constructor|].
  intros H. apply orb_false_iff in H as [H1 H2]. constructor; auto.
Qed.

Section Remove.
Variable sel : simple_selector.
Variable p : jsstring -> list attribute -> bool.

(** [remove] leaves no element that its selector matches. *)
Lemma remove_node_kills :
  (forall name attribs, p name attribs = true -> matches sel name attribs = true) ->
  forall n, existsb (any_element p) (remove_node sel n) = false.
Proof.
  intros Hp. induction n as [d|d|name attribs children IH] using node_induction;
    simpl; try reflexivity.
  destruct (matches sel name attribs) eqn:Em; simpl; [reflexivity|].
  rewrite orb_false_r, existsb_flat_map.
  rewrite (existsb_all_false _ _ IH), orb_false_r.
  destruct (p name attribs) eqn:Ep; [|reflexivity].
  apply Hp in Ep. congruence.
Qed.

Lemma remove_kills :
  (forall name attribs, p name attribs = true -> matches sel name attribs = true) ->
  forall doc, doc_any p (remove sel doc) = false.
Proof.
  intros Hp doc. unfold doc_any, remove. rewrite existsb_flat_map.
  apply existsb_all_false, Forall_forall. intros n _. now apply remove_node_kills.
Qed.

(** [remove] creates no element. *)
Lemma remove_node_absent n :
  any_element p n = false -> existsb (any_element p) (remove_node sel n) = false.
Proof.
  induction n as [d|d|name attribs children IH] using node_induction;
    simpl; try reflexivity.
  intros H. apply orb_false_iff in H as [H1 H2].
  destruct (matches sel name attribs); simpl; [reflexivity|].
  rewrite H1, orb_false_r, existsb_flat_map. simpl.
  apply existsb_all_false. apply existsb_false_all in H2.
  rewrite Forall_forall in *. auto.
Qed.

Lemma remove_absent doc :
  doc_any p doc = false -> doc_any p (remove sel doc) = false.
Proof.
  unfold doc_any, remove. intros H. rewrite existsb_flat_map.
  apply existsb_all_false. apply existsb_false_all in H.
  rewrite Forall_forall in *. auto using remove_node_absent.
Qed.
End Remove.

Section RemoveAttr.
Variable sel : simple_selector.
Variable attr : jsstring.
Variable p : jsstring -> list attribute -> bool.

(** [removeAttr] leaves no element with property [p], when [p] holds
    only of matched elements and fails once the attribute is gone. *)
Lemma removeAttr_kills :
  (forall name attribs, matches sel name attribs = true ->
                        p name (delete_attr attr attribs) = false) ->
  (forall name attribs, matches sel name attribs = false ->
                        p name attribs = false) ->
  forall doc, doc_any p (removeAttr sel attr doc) = false.
Proof.
  intros Hin Hout doc. unfold doc_any, removeAttr. rewrite existsb_map.
  apply existsb_all_false, Forall_forall. intros n _.
  induction n as [d|d|name attribs children IH] using node_induction;
    simpl; try reflexivity.
  rewrite existsb_map, (existsb_all_false _ _ IH), orb_false_r.
  destruct (matches sel name attribs) eqn:Em; auto.
Qed.

(** [removeAttr] does not make [p] true of an element, when deleting
    the attribute cannot. *)
Lemma removeAttr_absent :
  (forall name attribs, p name attribs = false ->
                        p name (delete_attr attr attribs) = false) ->
  forall doc, doc_any p doc = false -> doc_any p (removeAttr sel attr doc) = false.
Proof.
  intros Hdel doc H. unfold doc_any, removeAttr in *. rewrite existsb_map.
  apply existsb_false_all in H. apply existsb_all_false.
  rewrite Forall_forall in *. intros n Hn. specialize (H n Hn). clear Hn.
  induction n as [d|d|name attribs children IH] using node_induction;
    simpl in *; try reflexivity.
  apply orb_false_iff in H as [H1 H2].
  rewrite existsb_map. apply orb_false_iff. split.
  - destruct (matches sel name attribs); auto.
  - apply existsb_false_all in H2. apply existsb_all_false.
    rewrite Forall_forall in *. auto.
Qed.
End RemoveAttr.

Lemma get_attr_delete_same attr attribs :
  get_attr attr (delete_attr attr attribs) = None.
Proof.
  induction attribs as [|[k v] l IH]; simpl; [reflexivity|].
  destruct (jsstring_eqb k attr) eqn:E; simpl; [assumption|].
  now rewrite E.
Qed.

Lemma get_attr_delete_other attr other attribs :
  attr <> other ->
  get_attr other (delete_attr attr attribs) = get_attr other attribs.
Proof.
  intros Hne. induction attribs as [|[k v] l IH]; simpl; [reflexivity|].
  destruct (jsstring_eqb k attr) eqn:E; simpl.
  - apply jsstring_eqb_eq in E. subst k.
    destruct (jsstring_eqb attr other) eqn:E'; [|assumption].
    apply jsstring_eqb_eq in E'. contradiction.
  - now rewrite IH.
Qed.

(** What the three calls shared by all versions achieve. *)
Lemma strip_removes doc :
  doc_any is_script (strip_scripts_styles_images doc) = false /\
  doc_any is_style_element (strip_scripts_styles_images doc) = false /\
  doc_any is_inline_image (strip_scripts_styles_images doc) = false.
Proof.
  unfold strip_scripts_styles_images. repeat split.
  - apply removeAttr_absent; [auto|].
    apply remove_absent, remove_kills. auto.
  - apply removeAttr_absent; [auto|].
    apply remove_kills. auto.
  - apply removeAttr_kills.
    + intros name attribs _. unfold is_inline_image, attr_begins.
      rewrite get_attr_delete_same. apply andb_false_r.
    + auto.
Qed.

Lemma worker_cleanup_removes doc :
  stripped (Worker.cleanup doc) /\
  doc_any has_style_attribute (Worker.cleanup doc) = false.
Proof.
  destruct (strip_removes doc) as (H1 & H2 & H3).
  unfold Worker.cleanup, stripped. repeat split.
  - apply removeAttr_absent; auto.
  - apply removeAttr_absent; auto.
  - apply removeAttr_absent; [|assumption].
    intros name attribs. unfold is_inline_image, attr_begins.
    rewrite get_attr_delete_other; [auto|]. vm_compute. discriminate.
  - apply removeAttr_kills; [|discriminate].
    intros name attribs _. unfold has_style_attribute, has_attr.
    now rewrite get_attr_delete_same.
Qed.

(** Style attributes under the three calls shared by all versions. *)
Lemma style_values_removeAttr_src sel n :
  style_values_node (removeAttr_node sel (str "src") n) = style_values_node n.
Proof.
  induction n as [d|d|name attribs children IH] using node_induction;
    try reflexivity.
  cbn [removeAttr_node style_values_node]. f_equal.
  - destruct (matches sel name attribs); [|reflexivity].
    rewrite get_attr_delete_other; [reflexivity|]. vm_compute. discriminate.
  - induction IH as [|k ks Hk _ IHks]; [reflexivity|].
    cbn [map flat_map]. now rewrite Hk, IHks.
Qed.

Lemma style_values_remove_both n :
  style_values (remove (ByTag (str "style")) (remove_node (ByTag (str "script")) n))
  = kept_style_values_node n.
Proof.
  induction n as [d|d|name attribs children IH] using node_induction;
    try reflexivity.
  cbn [remove_node matches kept_style_values_node].
  destruct (jsstring_eqb name (str "script")); [reflexivity|].
  cbn [orb]. unfold remove. cbn [flat_map remove_node matches].
  destruct (jsstring_eqb name (str "style")); [reflexivity|].
  unfold style_values. cbn [app flat_map style_values_node]. rewrite app_nil_r.
  f_equal.
  induction IH as [|k ks Hk _ IHks]; [reflexivity|].
  cbn [flat_map]. rewrite !flat_map_app. rewrite IHks. f_equal. exact Hk.
Qed.

Lemma strip_keeps_style_values doc :
  style_values (strip_scripts_styles_images doc) = kept_style_values doc.
Proof.
  unfold strip_scripts_styles_images.
  transitivity (style_values (remove (ByTag (str "style"))
                                (remove (ByTag (str "script")) doc))).
  - unfold style_values, removeAttr. rewrite flat_map_concat_map, map_map.
    rewrite <- flat_map_concat_map. apply flat_map_ext.
    intros n. apply style_values_removeAttr_src.
  - unfold kept_style_values, remove at 2.
    induction doc as [|n l IH]; [reflexivity|].
    cbn [flat_map]. unfold remove at 1, style_values.
    rewrite !flat_map_app.
    fold (remove (ByTag (str "style")) (remove_node (ByTag (str "script")) n)).
    fold (style_values (remove (ByTag (str "style"))
                          (remove_node (ByTag (str "script")) n))).
    rewrite style_values_remove_both. f_equal. exact IH.
Qed.

(** C5, the claim as stated fails: the cleanup of
    [LlamaWriter.preprocessHTML] (and of [GeminiWriter.preprocessHTML])
    has no call removing [style] attributes; the attribute of
    [<p style="color:red">] is still there after it. *)
Lemma llama_cleanup_keeps_style_attribute :
  doc_any has_style_attribute (LlamaWriter.cleanup styled_paragraph) = true /\
  LlamaWriter.cleanup styled_paragraph = styled_paragraph /\
  GeminiWriter.cleanup styled_paragraph = styled_paragraph.
Proof. vm_compute. repeat split; reflexivity. Qed.

(** C5 (amended): in every version the extractor cleans the parsed
    document before any rule is applied, and the cleaned document holds no
    script element, no style element and no img element whose src begins
    with [data:]. The stand-alone [preprocessHTML] also leaves no style
    attribute on any element. [LlamaWriter.preprocessHTML] and
    [GeminiWriter.preprocessHTML] leave style attributes in place: the
    style attribute of every element that is neither a script or style
    element nor below one is in the cleaned document, with its value and
    in document order, and there is no other. *)
Theorem cleanup_before_rules ch html rules :
  let doc := load ch html in
  let title := text (select (ByTag (str "title")) doc) in
  (Worker.preprocessHTML ch html rules = extract ch title (Worker.cleanup doc) rules /\
   stripped (Worker.cleanup doc) /\
   doc_any has_style_attribute (Worker.cleanup doc) = false) /\
  (LlamaWriter.preprocessHTML ch html rules
     = extract ch title (LlamaWriter.cleanup doc) rules /\
   stripped (LlamaWriter.cleanup doc) /\
   style_values (LlamaWriter.cleanup doc) = kept_style_values doc) /\
  (GeminiWriter.preprocessHTML ch html = (title, text (GeminiWriter.cleanup doc)) /\
   stripped (GeminiWriter.cleanup doc) /\
   style_values (GeminiWriter.cleanup doc) = kept_style_values doc).
Proof.
  intros doc title.
  destruct (worker_cleanup_removes doc) as [Hw Hs].
  pose proof (strip_removes doc) as Hl.
  pose proof (strip_keeps_style_values doc) as Hk.
  repeat split; try reflexivity; try apply Hw; try apply Hl; assumption.
Qed.

(** C6: with an empty rule list the extractor returns exactly one
    fragment, the text of the body of the cleaned document. *)
Theorem no_rules_single_fragment ch html :
  let doc := load ch html in
  (processedHtml (LlamaWriter.preprocessHTML ch html [])
     = [text (select (ByTag (str "body")) (LlamaWriter.cleanup doc))] /\
   length (processedHtml (LlamaWriter.preprocessHTML ch html [])) = 1) /\
  (processedHtml (Worker.preprocessHTML ch html [])
     = [text (select (ByTag (str "body")) (Worker.cleanup doc))] /\
   length (processedHtml (Worker.preprocessHTML ch html [])) = 1).
Proof. intros doc. repeat split. Qed.

End ExtractorFacts.


(* ================================================================== *)
(** ** Properties of the Prompt Assembler *)
(* ================================================================== *)

Module PromptFacts.
Import Prompt PromptSpec.

Lemma map_indexed_length {A B} (f : A -> nat -> B) l :
  forall index, length (map_indexed f index l) = length l.
Proof. induction l as [|x l IH]; intros index; simpl; [reflexivity|]. now rewrite IH. Qed.

Lemma map_indexed_nth {A B} (f : A -> nat -> B) l :
  forall index i x,
    nth_error l i = Some x ->
    nth_error (map_indexed f index l) i = Some (f x (index + i)).
Proof.
  induction l as [|y l IH]; intros index [|i] x; simpl; try discriminate.
  - intros [= ->]. now rewrite Nat.add_0_r.
  - intros H. rewrite (IH (S index) i x H). f_equal. f_equal. lia.
Qed.

Lemma nth_error_shift {A} (x : A) l i :
  nth_error (x :: l) (i + 1) = nth_error l i.
Proof. now rewrite Nat.add_1_r. Qed.

(** The shape of the message array, whatever the indentation of the
    template literal. *)
Lemma messages_assembled indent title chunks additionalPrompt :
  assembled indent title chunks additionalPrompt
            (messages indent title chunks additionalPrompt).
Proof.
  unfold assembled, messages. cbn [app]. repeat split.
  - cbn [length]. rewrite length_app, map_indexed_length. simpl. lia.
  - cbn [nth_error]. unfold system_content, directive, QUOTE, NL.
    now rewrite <- !app_assoc.
  - intros i chunk H. rewrite nth_error_shift.
    rewrite nth_error_app1
      by (rewrite map_indexed_length; apply nth_error_Some; congruence).
    now rewrite (map_indexed_nth _ _ 0 i chunk H).
  - rewrite nth_error_shift.
    rewrite nth_error_app2 by (rewrite map_indexed_length; lia).
    now rewrite map_indexed_length, Nat.sub_diag.
Qed.

(** C7: for a title, a non-empty sequence of N chunks and an instruction,
    the assembled prompt has exactly N+2 messages: the system message made
    of the fixed directive, word for word, and the quoted title, then for
    each position i the user message labelled i+1 that carries chunk i
    unchanged, then the user message made of the fixed request to generate
    followed by the instruction. This holds of
    [LlamaWriter.generateMarkdown] and of the stand-alone
    [generateMarkdown], which differ in the indentation of the directive
    only: eight spaces in the one, one tab in the other. *)
Theorem prompt_is_ordered title chunks additionalPrompt :
  chunks <> [] ->
  assembled (repeat SPACE 8) title chunks additionalPrompt
            (LlamaWriter.messages title chunks additionalPrompt) /\
  assembled [TAB] title chunks additionalPrompt
            (Worker.messages title chunks additionalPrompt).
Proof. intros _. split; apply messages_assembled. Qed.

Lemma prompt_is_ordered_witness :
  [str "<p>a</p>"; str "<p>b</p>"] <> [] /\
  assembled (repeat SPACE 8) (str "T") [str "<p>a</p>"; str "<p>b</p>"] (str "Be brief.")
            (LlamaWriter.messages (str "T") [str "<p>a</p>"; str "<p>b</p>"]
                                  (str "Be brief.")) /\
  assembled [TAB] (str "T") [str "<p>a</p>"; str "<p>b</p>"] (str "Be brief.")
            (Worker.messages (str "T") [str "<p>a</p>"; str "<p>b</p>"]
                             (str "Be brief.")).
Proof.
  assert (Hne : [str "<p>a</p>"; str "<p>b</p>"] <> []) by discriminate.
  split; [exact Hne|].
  exact (prompt_is_ordered (str "T") [str "<p>a</p>"; str "<p>b</p>"]
                           (str "Be brief.") Hne).
Defined.

(** The second chunk of two is labelled 2. *)
Example labelled_second_chunk :
  nth_error (LlamaWriter.messages (str "T") [str "<p>a</p>"; str "<p>b</p>"] (str "Be brief.")) 2
  = Some (mkMessage user (str "HTML Chunk 2: <p>b</p>")).
Proof. vm_compute. reflexivity. Qed.

End PromptFacts.

(* ================================================================== *)
(** ** Properties of the Run Orchestrator *)
(* ================================================================== *)

Module RunFacts.
Import Extractor Prompt Runtime BaseWriter Scenarios.

Lemma bind_normal {A B} (m : M A) (k : A -> M B) s a s' :
  m s = (Normal a, s') -> bind m k s = k a s'.
Proof. intros H. unfold bind. now rewrite H. Qed.

Lemma bind_throw {A B} (m : M A) (k : A -> M B) s e s' :
  m s = (Throw e, s') -> bind m k s = (Throw e, s').
Proof. intros H. unfold bind. now rewrite H. Qed.

Ltac proceeds H := erewrite bind_normal; [|exact H]; cbn [negb truthy_opt or_empty].
Ltac raises H := erewrite bind_throw; [reflexivity|exact H].

(** C8: when the metadata lookup returns no record, [run] ends with
    outcome hardfail and status 404 and no markdown in the result; the
    lookup is the only call it made: no content retrieval, no generation
    and no write. *)
Theorem run_not_found env url writeMarkdown additionalPrompt s :
  PAGE_METADATA_first env url = Normal None ->
  run env url writeMarkdown additionalPrompt s
  = (mkResult (str "URL not found in D1 PageMetadata") hardfail 404 None,
     mkWstate (docId s) (r2Key s) (trace s ++ [MetadataSelect url])).
Proof.
  intros H. unfold run, run_steps, loadPageMetadata, bind, perform.
  rewrite H. reflexivity.
Qed.

Lemma run_not_found_witness :
  PAGE_METADATA_first unknown_url the_url = Normal None /\
  LlamaWriter.run unknown_url the_url the_domain 1024 20 (str "") fresh
  = (mkResult (str "URL not found in D1 PageMetadata") hardfail 404 None,
     mkWstate None None [MetadataSelect the_url]).
Proof.
  split; [reflexivity|].
  apply (run_not_found unknown_url the_url
           (LlamaWriter.writeMarkdown unknown_url the_domain 1024 20) (str "") fresh).
  reflexivity.
Defined.

(** C9: when a step of the orchestration raises, [run] returns outcome
    softfail with status 500 and the message of the exception, and the
    writer is left as it was when the step raised: in particular its trace
    holds no call made after the failing step. *)
Theorem run_softfail env url writeMarkdown additionalPrompt s0 e s' :
  step_raises env url writeMarkdown additionalPrompt s0 e s' ->
  run env url writeMarkdown additionalPrompt s0 = (mkResult e softfail 500 None, s') /\
  trace (snd (run env url writeMarkdown additionalPrompt s0)) = trace s'.
Proof.
  intros H.
  assert (Hrun : run env url writeMarkdown additionalPrompt s0
                 = (mkResult e softfail 500 None, s')).
  { unfold run, run_steps.
    destruct H as [e s1 H1
                  |e s1 s2 H1 H2
                  |e s1 s2 s3 html H1 H2 Ht H3
                  |e s1 s2 s3 s4 html markdown H1 H2 Ht H3 Hm H4
                  |e s1 s2 s3 s4 s5 html markdown H1 H2 Ht H3 Hm H4 H5];
      [raises H1
      |proceeds H1; raises H2
      |proceeds H1; proceeds H2; rewrite Ht; cbn [negb]; raises H3
      |proceeds H1; proceeds H2; rewrite Ht; cbn [negb]; proceeds H3;
       rewrite Hm; cbn [negb]; raises H4
      |proceeds H1; proceeds H2; rewrite Ht; cbn [negb]; proceeds H3;
       rewrite Hm; cbn [negb]; proceeds H4; raises H5]. }
  split; [exact Hrun|]. now rewrite Hrun.
Qed.

Lemma run_softfail_witness :
  step_raises model_down the_url
              (LlamaWriter.writeMarkdown model_down the_domain 1024 20) (str "") fresh
              (str "model unavailable") after_model_failure /\
  LlamaWriter.run model_down the_url the_domain 1024 20 (str "") fresh
  = (mkResult (str "model unavailable") softfail 500 None, after_model_failure) /\
  existsb is_write (trace after_model_failure) = false.
Proof.
  assert (H : step_raises model_down the_url
                (LlamaWriter.writeMarkdown model_down the_domain 1024 20) (str "") fresh
                (str "model unavailable") after_model_failure).
  { eapply (raises_writeMarkdown model_down the_url _ (str "") fresh
              (str "model unavailable")
              (mkWstate (Some (str "7")) (Some (str "pages/7")) [MetadataSelect the_url])
              (mkWstate (Some (str "7")) (Some (str "pages/7"))
                        [MetadataSelect the_url;
                         RawHtmlGet (str "pages/7.html");
                         RawHtmlText (str "pages/7.html")])
              after_model_failure
              (str "<p style=color:red>x</p>"));
      vm_compute; reflexivity. }
  split; [exact H|].
  split; [|reflexivity].
  exact (proj1 (run_softfail model_down the_url
                  (LlamaWriter.writeMarkdown model_down the_domain 1024 20)
                  (str "") fresh (str "model unavailable") after_model_failure H)).
Defined.

(** Conversely, the [try] block of [run] raises only when one of its
    steps does. *)
Lemma run_steps_throw env url writeMarkdown additionalPrompt s0 e s' :
  run_steps env url writeMarkdown additionalPrompt s0 = (Throw e, s') ->
  step_raises env url writeMarkdown additionalPrompt s0 e s'.
Proof.
  unfold run_steps. unfold bind at 1.
  destruct (loadPageMetadata env url s0) as [[[|]|e1] s1] eqn:H1; cbn [negb].
  - unfold bind at 1.
    destruct (getHtml env s1) as [[[html|]|e2] s2] eqn:H2; cbn [negb truthy_opt].
    + destruct (truthy html) eqn:Ht; cbn [negb or_empty].
      * unfold bind at 1.
        destruct (writeMarkdown html additionalPrompt s2) as [[markdown|e3] s3] eqn:H3.
        -- destruct (truthy markdown) eqn:Hm; cbn [negb].
           ++ unfold bind at 1.
              destruct (storeMarkdown env markdown s3) as [[[]|e4] s4] eqn:H4.
              ** unfold bind at 1.
                 destruct (updatePageMetadata env s4) as [[[]|e5] s5] eqn:H5.
                 { discriminate. }
                 intros [= <- <-]. eapply raises_updatePageMetadata; eassumption.
              ** intros [= <- <-]. eapply raises_storeMarkdown; eassumption.
           ++ discriminate.
        -- intros [= <- <-]. eapply raises_writeMarkdown; eassumption.
      * discriminate.
    + discriminate.
    + intros [= <- <-]. eapply raises_getHtml; eassumption.
  - discriminate.
  - intros [= <- <-]. now apply raises_loadPageMetadata.
Qed.

(** Scenario D in general: when the model call of [LlamaWriter] raises
    after the earlier steps succeeded, the run is a softfail and the model
    call is the last call of its trace. *)
Lemma llama_generation_failure env url domain maxTokens maxChunkSize additionalPrompt
      s0 s1 s2 s3 html rules e :
  loadPageMetadata env url s0 = (Normal true, s1) ->
  getHtml env s1 = (Normal (Some html), s2) ->
  truthy html = true ->
  LlamaWriter.getHtmlPreprocessRules env domain s2 = (Normal rules, s3) ->
  let pre := LlamaWriter.preprocessHTML (cheerio env) html rules in
  let chunks := LlamaWriter.chunks_of maxChunkSize (processedHtml pre) in
  let msgs := LlamaWriter.messages (title pre) chunks additionalPrompt in
  AI_run env (AI_MODEL env) msgs maxTokens = Throw e ->
  LlamaWriter.run env url domain maxTokens maxChunkSize additionalPrompt s0
  = (mkResult e softfail 500 None,
     mkWstate (docId s3) (r2Key s3) (trace s3 ++ [AiRun (AI_MODEL env) msgs maxTokens])).
Proof.
  intros H1 H2 Ht H3 pre chunks msgs Hai.
  unfold LlamaWriter.run, run, run_steps.
  proceeds H1. proceeds H2. rewrite Ht. cbn [negb].
  erewrite bind_throw; [reflexivity|].
  unfold LlamaWriter.writeMarkdown. erewrite bind_normal; [|exact H3].
  unfold LlamaWriter.generateMarkdown, bind, perform.
  fold pre. fold chunks. fold msgs. now rewrite Hai.
Qed.

(** *** The coerced model response *)

(** The text that an element contributes to [String] of its array. *)
Lemma element_text_falsy item :
  truthy match item with
         | VUndefined | VNull => []
         | _ => String_ item
         end = false
  <-> item = VUndefined \/ item = VNull \/ truthy (String_ item) = false.
Proof.
  split.
  - destruct item; auto.
  - intros [->|[->|H]]; [reflexivity|reflexivity|].
    destruct item; try exact H; discriminate.
Qed.

Lemma comma_join_two_truthy a b rest : truthy (comma_join (a :: b :: rest)) = true.
Proof. simpl. destruct a; reflexivity. Qed.

(** [String(v)] is the empty text for the empty string, for the empty
    array, and for an array of one element that is [undefined], [null] or
    itself rendered as the empty text; for no other value of a
    deserialised response. *)
Lemma String_falsy v :
  truthy (String_ v) = false <->
  v = VString [] \/ v = VArray [] \/
  exists item, v = VArray [item] /\
               (item = VUndefined \/ item = VNull \/ truthy (String_ item) = false).
Proof.
  split.
  - destruct v as [| |[|]|first rest|s|items|]; simpl; try discriminate.
    + destruct s; [auto|discriminate].
    + destruct items as [|item [|item' items]].
      * auto.
      * intros H. right. right. exists item. split; [reflexivity|].
        apply element_text_falsy. exact H.
      * intros H. exfalso.
        change (truthy (comma_join
                          (match item with
                           | VUndefined | VNull => []
                           | _ => String_ item
                           end
                           :: match item' with
                              | VUndefined | VNull => []
                              | _ => String_ item'
                              end
                           :: map (fun x => match x with
                                            | VUndefined | VNull => []
                                            | _ => String_ x
                                            end) items)) = false) in H.
        rewrite comma_join_two_truthy in H. discriminate.
  - intros [->|[->|(item & -> & H)]]; [reflexivity|reflexivity|].
    apply element_text_falsy in H. exact H.
Qed.

Lemma generateMarkdown_coerces env maxTokens title chunks additionalPrompt s v :
  AI_run env (AI_MODEL env) (LlamaWriter.messages title chunks additionalPrompt) maxTokens
  = Normal (mkResponse v) ->
  LlamaWriter.generateMarkdown env maxTokens title chunks additionalPrompt s
  = (Normal (String_ v),
     mkWstate (docId s) (r2Key s)
              (trace s ++ [AiRun (AI_MODEL env)
                                 (LlamaWriter.messages title chunks additionalPrompt)
                                 maxTokens])).
Proof.
  intros H. unfold LlamaWriter.generateMarkdown, bind, perform. now rewrite H.
Qed.

Lemma storeMarkdown_trace env markdown s s' :
  storeMarkdown env markdown s = (Normal tt, s') ->
  trace s' = trace s ++ [KnowledgePut (or_empty (r2Key s) ++ str ".md") markdown].
Proof.
  unfold storeMarkdown, bind, get_r2Key, perform, throw.
  destruct (truthy_opt (r2Key s)); cbn [negb]; [|discriminate].
  destruct (KNOWLEDGE_BUCKET_put env _ markdown) as [[]|]; [|discriminate].
  now intros [= <-].
Qed.

Lemma updatePageMetadata_trace env s s' :
  updatePageMetadata env s = (Normal tt, s') ->
  trace s' = trace s ++ [MetadataUpdate (or_empty (docId s))].
Proof.
  unfold updatePageMetadata, bind, get_docId, perform, throw.
  destruct (truthy_opt (docId s)); cbn [negb]; [|discriminate].
  destruct (PAGE_METADATA_update env _) as [[]|]; [|discriminate].
  now intros [= <-].
Qed.

(** C10, the claim as stated fails: the [response] field is not typed at
    run time. For the empty array, which is not the empty string, the
    coerced markdown is the empty text: it is falsy, and the run ends in
    the hardfail for empty output. *)
Lemma llama_empty_array_is_falsy :
  VArray [] <> VString [] /\
  fst (LlamaWriter.generateMarkdown model_empty_list 1024 (str "") [str "x"] (str "") fresh)
  = Normal [] /\
  truthy (String_ (VArray [])) = false /\
  fst (LlamaWriter.run model_empty_list the_url the_domain 1024 20 (str "") fresh)
  = mkResult (str "Failed to generate markdown") hardfail 500 None.
Proof. split; [discriminate|]. vm_compute. repeat split; reflexivity. Qed.

(** C10 (amended): the markdown of [LlamaWriter.generateMarkdown] is
    [String(response.response)]. It is falsy exactly when that text is
    empty; among the values that a deserialised response can hold, this
    is so for the empty string, for the empty array, and for an array of
    one element that is [undefined], [null] or itself rendered as the
    empty text. When the field is [null] or [undefined] the markdown is
    the truthy text [null] or [undefined]: in a run whose other steps
    succeed the hardfail branch for empty output is not taken, that text
    is written to the knowledge bucket, and the run reports success with
    it. *)
Theorem llama_null_response_is_persisted :
  (forall v,
      truthy (String_ v) = false <->
      v = VString [] \/ v = VArray [] \/
      exists item, v = VArray [item] /\
                   (item = VUndefined \/ item = VNull \/
                    truthy (String_ item) = false)) /\
  (forall env url domain maxTokens maxChunkSize additionalPrompt
          s0 s1 s2 s3 s5 s6 html rules v,
      loadPageMetadata env url s0 = (Normal true, s1) ->
      getHtml env s1 = (Normal (Some html), s2) ->
      truthy html = true ->
      LlamaWriter.getHtmlPreprocessRules env domain s2 = (Normal rules, s3) ->
      let pre := LlamaWriter.preprocessHTML (cheerio env) html rules in
      let chunks := LlamaWriter.chunks_of maxChunkSize (processedHtml pre) in
      let msgs := LlamaWriter.messages (title pre) chunks additionalPrompt in
      let s4 := mkWstate (docId s3) (r2Key s3)
                         (trace s3 ++ [AiRun (AI_MODEL env) msgs maxTokens]) in
      AI_run env (AI_MODEL env) msgs maxTokens = Normal (mkResponse v) ->
      v = VNull \/ v = VUndefined ->
      storeMarkdown env (String_ v) s4 = (Normal tt, s5) ->
      updatePageMetadata env s5 = (Normal tt, s6) ->
      (String_ v = str "null" \/ String_ v = str "undefined") /\
      truthy (String_ v) = true /\
      LlamaWriter.generateMarkdown env maxTokens (title pre) chunks additionalPrompt s3
      = (Normal (String_ v), s4) /\
      LlamaWriter.run env url domain maxTokens maxChunkSize additionalPrompt s0
      = (mkResult (str "Markdown saved to Knowledge Bucket") success 200
                  (Some (String_ v)), s6) /\
      In (KnowledgePut (or_empty (r2Key s3) ++ str ".md") (String_ v)) (trace s6)).
Proof.
  split; [exact String_falsy|].
  intros env url domain maxTokens maxChunkSize additionalPrompt
         s0 s1 s2 s3 s5 s6 html rules v H1 H2 Ht H3 pre chunks msgs s4 Hai Hv H5 H6.
  assert (Htruthy : truthy (String_ v) = true) by (destruct Hv; subst v; reflexivity).
  pose proof (generateMarkdown_coerces env maxTokens (title pre) chunks additionalPrompt
                                       s3 v Hai) as Hgen.
  assert (Hwrite : LlamaWriter.writeMarkdown env domain maxTokens maxChunkSize html
                                             additionalPrompt s2
                   = (Normal (String_ v), s4)).
  { unfold LlamaWriter.writeMarkdown. erewrite bind_normal; [|exact H3]. exact Hgen. }
  repeat split.
  - destruct Hv; subst v; [left|right]; reflexivity.
  - exact Htruthy.
  - exact Hgen.
  - unfold LlamaWriter.run, run, run_steps.
    proceeds H1. proceeds H2. rewrite Ht. cbn [negb].
    proceeds Hwrite. rewrite Htruthy. cbn [negb].
    proceeds H5. proceeds H6. reflexivity.
  - rewrite (updatePageMetadata_trace _ _ _ H6), (storeMarkdown_trace _ _ _ _ H5).
    apply in_or_app. left. apply in_or_app. right. now left.
Qed.

Lemma llama_null_response_is_persisted_witness :
  LlamaWriter.run model_null the_url the_domain 1024 20 (str "") fresh
  = (mkResult (str "Markdown saved to Knowledge Bucket") success 200 (Some (str "null")),
     null_reported) /\
  In (KnowledgePut (str "pages/7.md") (str "null")) (trace null_reported).
Proof.
  destruct (proj2 llama_null_response_is_persisted
              model_null the_url the_domain 1024%Q 20%Q (str "")
              fresh metadata_loaded content_loaded rules_loaded null_stored null_reported
              (str "<p style=color:red>x</p>") [] VNull)
    as (_ & _ & _ & Hrun & Hput);
    try (vm_compute; reflexivity).
  - left. reflexivity.
  - split; [exact Hrun|exact Hput].
Defined.

End RunFacts.

(* ================================================================== *)
(** ** Further properties of the Chunk Splitter *)
(* ================================================================== *)

Module SplitterMoreFacts.
Import Splitter SplitterInput.

Lemma reached_false cur maxChunkSize :
  (units cur < maxChunkSize)%Q -> reached cur maxChunkSize = false.
Proof.
  intros H. unfold reached, length_ge.
  destruct (Qle_bool maxChunkSize (units cur)) eqn:E; [|reflexivity].
  apply Qle_bool_iff in E. exfalso. exact (Qlt_not_le _ _ H E).
Qed.

Lemma reached_true_inv cur maxChunkSize :
  reached cur maxChunkSize = true -> (maxChunkSize <= units cur)%Q.
Proof. intros H. now apply Qle_bool_iff. Qed.

Lemma reached_false_inv cur maxChunkSize :
  reached cur maxChunkSize = false -> (units cur < maxChunkSize)%Q.
Proof.
  intros H. apply Qnot_le_lt. intros Hle.
  apply Qle_bool_iff in Hle. unfold reached, length_ge in H. congruence.
Qed.

(** Lengths as numbers. *)
Lemma units_le a b : length a <= length b -> (units a <= units b)%Q.
Proof. intros H. unfold units. rewrite <- Zle_Qle. lia. Qed.

Lemma units_snoc l (c : char) : (units (l ++ [c]) == units l + 1)%Q.
Proof.
  unfold units. rewrite length_app. cbn [length].
  rewrite Nat2Z.inj_add, inject_Z_plus. reflexivity.
Qed.

Lemma units_nil : (units [] == 0)%Q.
Proof. reflexivity. Qed.

(** A text no longer than one that is below the bound is below it too. *)
Lemma below_bound a n maxChunkSize :
  (inject_Z (Z.of_nat n) < maxChunkSize)%Q -> length a <= n ->
  (units a < maxChunkSize)%Q.
Proof.
  intros H Hle. eapply Qle_lt_trans; [|exact H].
  unfold units. rewrite <- Zle_Qle. lia.
Qed.

Lemma below_bound_nat m n maxChunkSize :
  (inject_Z (Z.of_nat n) < maxChunkSize)%Q -> m <= n ->
  (inject_Z (Z.of_nat m) < maxChunkSize)%Q.
Proof.
  intros H Hle. eapply Qle_lt_trans; [|exact H]. rewrite <- Zle_Qle. lia.
Qed.

(** The loop from any state, on a rest of input that is too short to
    reach the bound and whose tag tokens are terminated: no chunk is
    emitted and the rest is appended to the accumulator, after the tag
    token under way. *)
Lemma short_rest_is_appended maxChunkSize s :
  forall st,
    tokens_terminated (inTag st) s = true ->
    (inTag st = false -> tagContent st = []) ->
    (inject_Z (Z.of_nat (length (currentChunk st) + length (tagContent st)
                         + length s))
     < maxChunkSize)%Q ->
    chunks (fold_left (step maxChunkSize) s st) = chunks st /\
    currentChunk (fold_left (step maxChunkSize) s st)
    = currentChunk st ++ tagContent st ++ s.
Proof.
  induction s as [|c s IH]; intros st Ht Hc Hlen.
  - simpl in *. split; [reflexivity|].
    destruct (inTag st); [discriminate|]. now rewrite (Hc eq_refl), !app_nil_r.
  - simpl in Ht. cbn [fold_left]. unfold step at 2 4.
    destruct (char_eqb c LT) eqn:Elt.
    + apply andb_true_iff in Ht as [Hin Ht].
      apply negb_true_iff in Hin. specialize (Hc Hin).
      destruct (IH (mkState (chunks st) (currentChunk st) (tagStack st) true [c]))
        as [H1 H2]; cbn [chunks currentChunk inTag tagContent length].
      * exact Ht.
      * discriminate.
      * rewrite Hc in Hlen. cbn [length] in Hlen.
        eapply below_bound_nat; [exact Hlen|lia].
      * cbn [chunks currentChunk tagContent] in H1, H2.
        rewrite H1, H2, Hc. split; reflexivity.
    + destruct (inTag st) eqn:Hin.
      * destruct (char_eqb c GT) eqn:Egt.
        -- destruct (IH (mkState (chunks st) (currentChunk st ++ tagContent st ++ [c])
                                 (update_stack (tagContent st ++ [c]) (tagStack st))
                                 false []))
             as [H1 H2]; cbn [chunks currentChunk inTag tagContent length].
           ++ exact Ht.
           ++ reflexivity.
           ++ eapply below_bound_nat; [exact Hlen|].
              rewrite !length_app. cbn [length]. lia.
           ++ cbn [chunks currentChunk tagContent] in H1, H2.
              rewrite H1, H2. split; [reflexivity|].
              cbn [app]. now rewrite <- !app_assoc.
        -- destruct (IH (mkState (chunks st) (currentChunk st) (tagStack st) true
                                 (tagContent st ++ [c])))
             as [H1 H2]; cbn [chunks currentChunk inTag tagContent length].
           ++ exact Ht.
           ++ discriminate.
           ++ eapply below_bound_nat; [exact Hlen|].
              rewrite !length_app. cbn [length]. lia.
           ++ cbn [chunks currentChunk tagContent] in H1, H2.
              rewrite H1, H2. split; [reflexivity|].
              now rewrite <- !app_assoc.
      * specialize (Hc eq_refl).
        assert (Ht' : tokens_terminated false s = true)
          by (destruct (char_eqb c GT); exact Ht).
        cbn [negb andb]. rewrite andb_true_r.
        rewrite reached_false
          by (eapply below_bound; [exact Hlen|];
              rewrite length_app; cbn [length]; lia).
        destruct (IH (mkState (chunks st) (currentChunk st ++ [c]) (tagStack st)
                              false (tagContent st)))
          as [H1 H2]; cbn [chunks currentChunk inTag tagContent length].
        -- exact Ht'.
        -- intros _. exact Hc.
        -- eapply below_bound_nat; [exact Hlen|].
           rewrite Hc. rewrite !length_app. cbn [length]. lia.
        -- cbn [chunks currentChunk tagContent] in H1, H2.
           rewrite H1, H2, Hc. split; [reflexivity|].
           cbn [app]. now rewrite <- app_assoc.
Qed.

(** An input shorter than the maximum whose tag tokens are all terminated
    comes back unchanged, as the only chunk. *)
Theorem short_input_single_chunk html maxChunkSize :
  html <> [] ->
  tokens_terminated false html = true ->
  (units html < maxChunkSize)%Q ->
  splitHtml html maxChunkSize = [html].
Proof.
  intros Hne Ht Hlen.
  destruct (short_rest_is_appended maxChunkSize html init) as [H1 H2];
    try assumption; try reflexivity.
  unfold splitHtml, finish, scan. rewrite H1, H2. simpl.
  destruct html; [contradiction|reflexivity].
Qed.

Lemma short_input_single_chunk_witness :
  splitHtml (str "<p>Hello <b>world</b></p>") 114688
  = [str "<p>Hello <b>world</b></p>"].
Proof.
  apply short_input_single_chunk.
  - discriminate.
  - reflexivity.
  - vm_compute. reflexivity.
Defined.

(** *** Input without tags *)

(** One iteration on a character other than [<], outside a tag token and
    with an empty stack. *)
Lemma step_plain maxChunkSize st c :
  char_eqb c LT = false -> inTag st = false -> tagStack st = [] ->
  step maxChunkSize st c
  = if reached (currentChunk st ++ [c]) maxChunkSize
    then mkState (chunks st
                    ++ [slice_to (split_index (currentChunk st ++ [c]))
                                 (currentChunk st ++ [c])])
                 [] [] false (tagContent st)
    else mkState (chunks st) (currentChunk st ++ [c]) [] false (tagContent st).
Proof.
  intros Hc Hin Hs. unfold step, emit. rewrite Hc, Hin. cbn [negb].
  rewrite andb_true_r. cbn [tagStack chunks inTag tagContent]. rewrite Hs.
  destruct (reached (currentChunk st ++ [c]) maxChunkSize); [|reflexivity].
  unfold close_tags, open_tags, slice_from. cbn [rev map concat app].
  rewrite app_nil_r. now destruct (split_index (currentChunk st ++ [c])).
Qed.

Lemma not_in_snoc {A} (x : A) l c : ~ In x (l ++ [c]) -> ~ In x l /\ c <> x.
Proof.
  intros H. split.
  - intros Hl. apply H, in_or_app. now left.
  - intros ->. apply H, in_or_app. right. now left.
Qed.

Lemma char_neq_eqb (c x : char) : c <> x -> char_eqb c x = false.
Proof. intros H. unfold char_eqb. now apply N.eqb_neq. Qed.

Lemma piece_of_snoc x l c : piece_of x l -> piece_of x (l ++ [c]).
Proof.
  intros (b & a & ->). exists b, (a ++ [c]). now rewrite <- !app_assoc.
Qed.

(** What the loop keeps on input without [<], for a positive bound. *)
Lemma plain_invariant maxChunkSize l :
  (0 < maxChunkSize)%Q -> ~ In LT l ->
  let st := scan maxChunkSize l in
  tagStack st = [] /\ inTag st = false /\
  (units (currentChunk st) < maxChunkSize)%Q /\
  (exists before, l = before ++ currentChunk st) /\
  Forall (fun chunk => piece_of chunk l /\
                       (units chunk < maxChunkSize + 1)%Q) (chunks st).
Proof.
  intros Hmax. induction l as [|c l IH] using rev_ind; intros Hlt.
  - cbn. repeat split; try exact Hmax; [now exists []|constructor].
  - apply not_in_snoc in Hlt as [Hl Hc]. specialize (IH Hl).
    cbv zeta in *. destruct IH as (Hs & Hin & Hlen & (before & Hb) & Hall).
    rewrite SplitterFacts.scan_snoc, step_plain by auto using char_neq_eqb.
    assert (Hold : Forall (fun chunk => piece_of chunk (l ++ [c]) /\
                                        (units chunk < maxChunkSize + 1)%Q)
                          (chunks (scan maxChunkSize l))).
    { eapply Forall_impl; [|exact Hall]. intros x [H1 H2]. auto using piece_of_snoc. }
    destruct (reached (currentChunk (scan maxChunkSize l) ++ [c]) maxChunkSize) eqn:Hr;
      cbn [tagStack inTag currentChunk chunks length].
    + repeat split; try exact Hmax.
      * exists (l ++ [c]). now rewrite app_nil_r.
      * apply Forall_app. split; [exact Hold|]. constructor; [|constructor]. split.
        -- exists before,
             (skipn (split_index (currentChunk (scan maxChunkSize l) ++ [c]))
                    (currentChunk (scan maxChunkSize l) ++ [c])).
           unfold slice_to. rewrite firstn_skipn. rewrite Hb at 1.
           now rewrite <- app_assoc.
        -- apply Qle_lt_trans
             with (units (currentChunk (scan maxChunkSize l) ++ [c])).
           ++ apply units_le. unfold slice_to. rewrite length_firstn. lia.
           ++ rewrite units_snoc. lra.
    + apply reached_false_inv in Hr.
      repeat split; try assumption.
      exists before. rewrite Hb at 1. now rewrite <- app_assoc.
Qed.

(** On input without [<] and with a positive bound, every chunk is a
    contiguous piece of the input and has fewer than [maxChunkSize + 1]
    code units: at most [maxChunkSize] of them when the bound is a whole
    number, and at most the bound rounded up when it is not. *)
Theorem plain_text_chunks_bounded html maxChunkSize :
  (0 < maxChunkSize)%Q -> ~ In LT html ->
  Forall (fun chunk => piece_of chunk html /\
                       (units chunk < maxChunkSize + 1)%Q)
         (splitHtml html maxChunkSize).
Proof.
  intros Hmax Hlt.
  destruct (plain_invariant maxChunkSize html Hmax Hlt)
    as (_ & _ & Hlen & (before & Hb) & Hall).
  unfold splitHtml, finish.
  destruct (truthy (currentChunk (scan maxChunkSize html))); [|exact Hall].
  apply Forall_app. split; [exact Hall|]. constructor; [|constructor]. split.
  - exists before, []. now rewrite app_nil_r.
  - lra.
Qed.

Lemma plain_text_chunks_bounded_witness :
  Forall (fun chunk => piece_of chunk (str "one two three four") /\
                       (units chunk < 8 + 1)%Q)
         (splitHtml (str "one two three four") 8).
Proof.
  apply plain_text_chunks_bounded.
  - reflexivity.
  - vm_compute. intuition discriminate.
Defined.

(** *** Input without tags and without spaces *)

Lemma lastIndexOf_absent c s : ~ In c s -> lastIndexOf c s = None.
Proof.
  induction s as [|x s IH]; intros H; [reflexivity|].
  cbn. rewrite IH by (intros Hs; apply H; now right).
  rewrite char_neq_eqb; [reflexivity|]. intros ->. apply H. now left.
Qed.

Lemma split_index_no_space s : ~ In SPACE s -> split_index s = length s.
Proof. intros H. unfold split_index. now rewrite lastIndexOf_absent. Qed.

Lemma unbroken_invariant maxChunkSize l :
  (0 < maxChunkSize)%Q -> ~ In LT l -> ~ In SPACE l ->
  let st := scan maxChunkSize l in
  tagStack st = [] /\ inTag st = false /\
  (units (currentChunk st) < maxChunkSize)%Q /\
  concat (chunks st) ++ currentChunk st = l /\
  Forall (fun chunk => (maxChunkSize <= units chunk)%Q /\
                       (units chunk < maxChunkSize + 1)%Q) (chunks st).
Proof.
  intros Hmax. induction l as [|c l IH] using rev_ind; intros Hlt Hsp.
  - cbn. repeat split; try exact Hmax. constructor.
  - apply not_in_snoc in Hlt as [Hl Hc].
    pose proof Hsp as Hsp'. apply not_in_snoc in Hsp' as [Hsl Hsc].
    specialize (IH Hl Hsl). cbv zeta in *.
    destruct IH as (Hs & Hin & Hlen & Hcat & Hall).
    rewrite SplitterFacts.scan_snoc, step_plain by auto using char_neq_eqb.
    assert (Hcur : ~ In SPACE (currentChunk (scan maxChunkSize l) ++ [c])).
    { intros H. apply Hsp. rewrite <- Hcat, <- app_assoc.
      apply in_or_app. now right. }
    destruct (reached (currentChunk (scan maxChunkSize l) ++ [c]) maxChunkSize) eqn:Hr;
      cbn [tagStack inTag currentChunk chunks length].
    + apply reached_true_inv in Hr.
      rewrite split_index_no_space by exact Hcur.
      unfold slice_to. rewrite firstn_all.
      repeat split; try exact Hmax.
      * rewrite concat_app. cbn [concat]. rewrite !app_nil_r.
        now rewrite <- Hcat at 3; rewrite app_assoc.
      * apply Forall_app. split; [exact Hall|]. constructor; [|constructor].
        split; [exact Hr|]. rewrite units_snoc. lra.
    + apply reached_false_inv in Hr.
      repeat split; try assumption.
      now rewrite <- Hcat at 3; rewrite app_assoc.
Qed.

(** Input without [<] and without a space, with a positive bound, is cut
    into consecutive pieces: the chunks put end to end give the input
    back; every chunk except possibly the last has the least whole number
    of code units that is not below [maxChunkSize] (exactly [maxChunkSize]
    when the bound is a whole number), and the last one has fewer than
    [maxChunkSize]. *)
Theorem unbroken_text_is_cut_exactly html maxChunkSize :
  (0 < maxChunkSize)%Q -> ~ In LT html -> ~ In SPACE html ->
  concat (splitHtml html maxChunkSize) = html /\
  exists full rest,
    splitHtml html maxChunkSize = full ++ (if truthy rest then [rest] else []) /\
    Forall (fun chunk => (maxChunkSize <= units chunk)%Q /\
                         (units chunk < maxChunkSize + 1)%Q) full /\
    (units rest < maxChunkSize)%Q.
Proof.
  intros Hmax Hlt Hsp.
  destruct (unbroken_invariant maxChunkSize html Hmax Hlt Hsp)
    as (_ & _ & Hlen & Hcat & Hall).
  unfold splitHtml, finish. split.
  - destruct (currentChunk (scan maxChunkSize html)) eqn:E; cbn [truthy].
    + now rewrite app_nil_r in Hcat.
    + rewrite concat_app. cbn [concat]. now rewrite app_nil_r.
  - exists (chunks (scan maxChunkSize html)), (currentChunk (scan maxChunkSize html)).
    repeat split; try assumption.
    destruct (truthy (currentChunk (scan maxChunkSize html)));
      [reflexivity|now rewrite app_nil_r].
Qed.

Lemma unbroken_text_is_cut_exactly_witness :
  concat (splitHtml (str "abcdefghij") 2.5) = str "abcdefghij" /\
  exists full rest,
    splitHtml (str "abcdefghij") 2.5 = full ++ (if truthy rest then [rest] else []) /\
    Forall (fun chunk => (2.5 <= units chunk)%Q /\
                         (units chunk < 2.5 + 1)%Q) full /\
    (units rest < 2.5)%Q.
Proof.
  apply unbroken_text_is_cut_exactly.
  - reflexivity.
  - vm_compute. intuition discriminate.
  - vm_compute. intuition discriminate.
Defined.

(** *** A tag token that is not terminated *)

(** Inside a tag token, characters other than [<] and [>] only extend the
    token under way. *)
Lemma inside_tag_extends maxChunkSize s :
  forall st,
    inTag st = true -> ~ In LT s -> ~ In GT s ->
    fold_left (step maxChunkSize) s st
    = mkState (chunks st) (currentChunk st) (tagStack st) true (tagContent st ++ s).
Proof.
  induction s as [|c s IH]; intros st Hin Hlt Hgt.
  - cbn. rewrite app_nil_r, <- Hin. now destruct st.
  - cbn [fold_left]. unfold step at 2.
    rewrite (char_neq_eqb c LT) by (intros ->; apply Hlt; now left).
    rewrite Hin, (char_neq_eqb c GT) by (intros ->; apply Hgt; now left).
    rewrite IH; cbn [chunks currentChunk tagStack inTag tagContent].
    + now rewrite <- app_assoc.
    + reflexivity.
    + intros H. apply Hlt. now right.
    + intros H. apply Hgt. now right.
Qed.

Lemma scan_app maxChunkSize a b :
  scan maxChunkSize (a ++ b) = fold_left (step maxChunkSize) b (scan maxChunkSize a).
Proof. unfold scan. apply fold_left_app. Qed.

Lemma scan_after_lt maxChunkSize before :
  scan maxChunkSize (before ++ [LT])
  = mkState (chunks (scan maxChunkSize before)) (currentChunk (scan maxChunkSize before))
            (tagStack (scan maxChunkSize before)) true [LT].
Proof. now rewrite SplitterFacts.scan_snoc. Qed.

(** A [<] whose token is not ended by a [>] is lost with everything that
    follows it up to the next [<]; when no further [<] comes, up to the end
    of the input. *)
Theorem unterminated_token_is_dropped maxChunkSize before s rest :
  ~ In LT s -> ~ In GT s ->
  splitHtml (before ++ LT :: s ++ LT :: rest) maxChunkSize
  = splitHtml (before ++ LT :: rest) maxChunkSize /\
  splitHtml (before ++ LT :: s) maxChunkSize = splitHtml before maxChunkSize.
Proof.
  intros Hlt Hgt. unfold splitHtml. split.
  - f_equal.
    change (before ++ LT :: s ++ LT :: rest) with (before ++ [LT] ++ s ++ [LT] ++ rest).
    change (before ++ LT :: rest) with (before ++ [LT] ++ rest).
    rewrite !app_assoc. rewrite (scan_app _ _ rest), (scan_app _ (before ++ [LT]) rest).
    f_equal. rewrite (SplitterFacts.scan_snoc _ ((before ++ [LT]) ++ s) LT).
    rewrite (scan_app _ (before ++ [LT]) s), scan_after_lt.
    rewrite inside_tag_extends by auto. reflexivity.
  - change (before ++ LT :: s) with (before ++ [LT] ++ s).
    rewrite app_assoc, (scan_app _ (before ++ [LT]) s), scan_after_lt.
    rewrite inside_tag_extends by auto. reflexivity.
Qed.

Lemma unterminated_token_is_dropped_witness :
  splitHtml (str "if a " ++ LT :: str " b then " ++ LT :: str "i>x") 100
  = splitHtml (str "if a " ++ LT :: str "i>x") 100 /\
  splitHtml (str "if a " ++ LT :: str " b then ") 100 = splitHtml (str "if a ") 100.
Proof.
  apply unterminated_token_is_dropped; vm_compute; intuition discriminate.
Defined.

End SplitterMoreFacts.

(* ================================================================== *)
(** ** Further properties of the extractor *)
(* ================================================================== *)

Module ExtractorMoreFacts.
Import Dom Extractor ExtractorSpec ExtractorText ExtractorRules ExtractorFacts.

(** *** Calls that find nothing change nothing *)

Lemma remove_nothing sel doc :
  doc_any (matches sel) doc = false -> remove sel doc = doc.
Proof.
  unfold doc_any, remove. intros H. apply existsb_false_all in H.
  induction H as [|n l Hn _ IH]; [reflexivity|].
  cbn [flat_map]. rewrite IH. clear IH.
  change (n :: l) with ([n] ++ l). f_equal.
  induction n as [d|d|name attribs children IHn] using node_induction;
    try reflexivity.
  cbn in Hn. apply orb_false_iff in Hn as [Hm Hk].
  cbn [remove_node]. rewrite Hm. do 2 f_equal.
  apply existsb_false_all in Hk.
  induction children as [|k ks IHks]; [reflexivity|].
  inversion IHn as [|? ? Hk1 Hks1]; subst. inversion Hk as [|? ? Hk2 Hks2]; subst.
  cbn [flat_map]. rewrite (Hk1 Hk2). cbn [app]. f_equal. now apply IHks.
Qed.

Lemma removeAttr_nothing sel attr doc :
  doc_any (matches sel) doc = false -> removeAttr sel attr doc = doc.
Proof.
  unfold doc_any, removeAttr. intros H. apply existsb_false_all in H.
  induction H as [|n l Hn _ IH]; [reflexivity|].
  cbn [map]. rewrite IH. f_equal. clear IH.
  induction n as [d|d|name attribs children IHn] using node_induction;
    try reflexivity.
  cbn in Hn. apply orb_false_iff in Hn as [Hm Hk].
  cbn [removeAttr_node]. rewrite Hm. f_equal.
  apply existsb_false_all in Hk.
  induction children as [|k ks IHks]; [reflexivity|].
  inversion IHn as [|? ? Hk1 Hks1]; subst. inversion Hk as [|? ? Hk2 Hks2]; subst.
  cbn [map]. rewrite (Hk1 Hk2). f_equal. now apply IHks.
Qed.

Lemma delete_attr_absent attr attribs :
  has_attr attr attribs = false -> delete_attr attr attribs = attribs.
Proof.
  unfold has_attr, delete_attr. induction attribs as [|[k v] l IH]; [reflexivity|].
  cbn. destruct (jsstring_eqb k attr); [discriminate|].
  intros H. cbn. f_equal. now apply IH.
Qed.

Lemma removeAttr_absent_attr attr doc :
  doc_any (fun _ attribs => has_attr attr attribs) doc = false ->
  removeAttr Universal attr doc = doc.
Proof.
  unfold doc_any, removeAttr. intros H. apply existsb_false_all in H.
  induction H as [|n l Hn _ IH]; [reflexivity|].
  cbn [map]. rewrite IH. f_equal. clear IH.
  induction n as [d|d|name attribs children IHn] using node_induction;
    try reflexivity.
  cbn in Hn. apply orb_false_iff in Hn as [Hm Hk].
  cbn [removeAttr_node matches]. rewrite (delete_attr_absent _ _ Hm). f_equal.
  apply existsb_false_all in Hk.
  induction children as [|k ks IHks]; [reflexivity|].
  inversion IHn as [|? ? Hk1 Hks1]; subst. inversion Hk as [|? ? Hk2 Hks2]; subst.
  cbn [map]. rewrite (Hk1 Hk2). f_equal. now apply IHks.
Qed.

Lemma strip_stripped doc :
  stripped doc -> strip_scripts_styles_images doc = doc.
Proof.
  intros (H1 & H2 & H3). unfold strip_scripts_styles_images.
  rewrite (remove_nothing (ByTag (str "script")) doc H1).
  rewrite (remove_nothing (ByTag (str "style")) doc H2).
  apply removeAttr_nothing. exact H3.
Qed.

(** The cleanup is idempotent in every version: cleaning a cleaned
    document changes nothing. *)
Theorem cleanup_idempotent doc :
  Worker.cleanup (Worker.cleanup doc) = Worker.cleanup doc /\
  LlamaWriter.cleanup (LlamaWriter.cleanup doc) = LlamaWriter.cleanup doc /\
  GeminiWriter.cleanup (GeminiWriter.cleanup doc) = GeminiWriter.cleanup doc.
Proof.
  destruct (worker_cleanup_removes doc) as [Hw Hs].
  pose proof (strip_removes doc) as Hl.
  repeat split.
  - unfold Worker.cleanup at 1. rewrite (strip_stripped _ Hw).
    now apply removeAttr_absent_attr.
  - now apply strip_stripped.
  - now apply strip_stripped.
Qed.

(** *** The text that survives the cleanup *)

Lemma text_app a b : text (a ++ b) = text a ++ text b.
Proof. unfold text. now rewrite map_app, concat_app. Qed.

Lemma textContent_removeAttr_node sel attr n :
  textContent (removeAttr_node sel attr n) = textContent n.
Proof.
  induction n as [d|d|name attribs children IH] using node_induction;
    try reflexivity.
  cbn [removeAttr_node textContent]. f_equal. rewrite map_map.
  induction IH as [|k ks Hk _ IHks]; [reflexivity|].
  cbn [map]. now rewrite Hk, IHks.
Qed.

Lemma text_map_removeAttr_node sel attr nodes :
  text (map (removeAttr_node sel attr) nodes) = text nodes.
Proof.
  unfold text. rewrite map_map. f_equal.
  induction nodes as [|n l IH]; [reflexivity|].
  cbn [map]. now rewrite textContent_removeAttr_node, IH.
Qed.

Lemma text_removeAttr sel attr doc : text (removeAttr sel attr doc) = text doc.
Proof. apply text_map_removeAttr_node. Qed.

Lemma text_remove_both n :
  text (remove (ByTag (str "style")) (remove_node (ByTag (str "script")) n))
  = visible_text_node n.
Proof.
  induction n as [d|d|name attribs children IH] using node_induction.
  - cbn. now rewrite app_nil_r.
  - reflexivity.
  - cbn [remove_node matches visible_text_node].
    destruct (jsstring_eqb name (str "script")); [reflexivity|].
    cbn [orb]. unfold remove. cbn [flat_map remove_node matches].
    destruct (jsstring_eqb name (str "style")); [reflexivity|].
    unfold text. cbn [app map concat textContent]. rewrite app_nil_r.
    induction IH as [|k ks Hk _ IHks]; [reflexivity|].
    cbn [flat_map map concat]. rewrite flat_map_app, map_app, concat_app.
    rewrite IHks. f_equal. exact Hk.
Qed.

Lemma text_strip doc : text (strip_scripts_styles_images doc) = visible_text doc.
Proof.
  unfold strip_scripts_styles_images. rewrite text_removeAttr.
  unfold visible_text, remove at 2.
  induction doc as [|n l IH]; [reflexivity|].
  cbn [flat_map map concat]. unfold remove at 1. rewrite flat_map_app.
  rewrite text_app. fold (remove (ByTag (str "style")) (remove_node (ByTag (str "script")) n)).
  rewrite text_remove_both. f_equal. exact IH.
Qed.

(** The text that [GeminiWriter.preprocessHTML] hands to the model is the
    text of the parsed document without the content of script and style
    elements; content anywhere else, comments apart, is kept in order. *)
Theorem gemini_text_is_visible_text ch html :
  snd (GeminiWriter.preprocessHTML ch html) = visible_text (load ch html) /\
  fst (GeminiWriter.preprocessHTML ch html)
  = text (select (ByTag (str "title")) (load ch html)).
Proof. split; [apply text_strip|reflexivity]. Qed.

(** *** Style attributes and the fallback fragment *)

Lemma select_removeAttr_node tag sel attr n :
  select_node (ByTag tag) (removeAttr_node sel attr n)
  = map (removeAttr_node sel attr) (select_node (ByTag tag) n).
Proof.
  induction n as [d|d|name attribs children IH] using node_induction;
    try reflexivity.
  cbn [removeAttr_node select_node matches]. rewrite map_app. f_equal.
  - destruct (jsstring_eqb name tag); reflexivity.
  - induction IH as [|k ks Hk _ IHks]; [reflexivity|].
    cbn [map flat_map]. now rewrite map_app, Hk, IHks.
Qed.

Lemma select_removeAttr tag sel attr doc :
  select (ByTag tag) (removeAttr sel attr doc)
  = map (removeAttr_node sel attr) (select (ByTag tag) doc).
Proof.
  unfold select, removeAttr. induction doc as [|n l IH]; [reflexivity|].
  cbn [map flat_map]. now rewrite map_app, select_removeAttr_node, IH.
Qed.

(** Without rules the stand-alone [preprocessHTML] and
    [LlamaWriter.preprocessHTML] return the same title and the same single
    fragment: removing style attributes does not change the text. *)
Theorem no_rules_versions_agree ch html :
  Worker.preprocessHTML ch html [] = LlamaWriter.preprocessHTML ch html [].
Proof.
  unfold Worker.preprocessHTML, LlamaWriter.preprocessHTML, extract. cbn [no_rules].
  unfold Worker.cleanup, LlamaWriter.cleanup.
  now rewrite select_removeAttr, text_map_removeAttr_node.
Qed.

(** *** The rule loop *)





End ExtractorMoreFacts.

(* ================================================================== *)
(** ** Further properties of the writers *)
(* ================================================================== *)

Module WriterMoreFacts.
Import Dom Extractor Prompt Runtime BaseWriter Scenarios MoreScenarios RunFacts.

(** *** Splitting only when a fragment is too long *)

Lemma length_gt_false curr maxChunkSize :
  (units curr <= maxChunkSize)%Q -> length_gt curr maxChunkSize = false.
Proof.
  intros H. unfold length_gt. apply negb_false_iff. now apply Qle_bool_iff.
Qed.

Lemma length_gt_true curr maxChunkSize :
  (maxChunkSize < units curr)%Q -> length_gt curr maxChunkSize = true.
Proof.
  intros H. unfold length_gt. apply negb_true_iff.
  destruct (Qle_bool (units curr) maxChunkSize) eqn:E; [|reflexivity].
  apply Qle_bool_iff in E. exfalso. exact (Qlt_not_le _ _ H E).
Qed.

Lemma any_too_long_existsb maxChunkSize processedHtml :
  LlamaWriter.any_too_long maxChunkSize processedHtml
  = existsb (fun curr : jsstring => length_gt curr maxChunkSize) processedHtml.
Proof.
  unfold LlamaWriter.any_too_long.
  assert (H : forall l acc,
             fold_left (fun acc (curr : jsstring) => acc || length_gt curr maxChunkSize)
                       l acc
             = acc || existsb (fun curr : jsstring => length_gt curr maxChunkSize) l).
  { induction l as [|x l IH]; intros acc; cbn [fold_left existsb].
    - now rewrite orb_false_r.
    - now rewrite IH, orb_assoc. }
  now rewrite H.
Qed.

Lemma chunks_of_short maxChunkSize processedHtml :
  Forall (fun curr : jsstring => (units curr <= maxChunkSize)%Q) processedHtml ->
  LlamaWriter.chunks_of maxChunkSize processedHtml = processedHtml.
Proof.
  intros H. unfold LlamaWriter.chunks_of. rewrite any_too_long_existsb.
  replace (existsb _ processedHtml) with false; [reflexivity|].
  symmetry. apply ExtractorFacts.existsb_all_false.
  eapply Forall_impl; [|exact H]. intros x Hx. now apply length_gt_false.
Qed.

(** [LlamaWriter.writeMarkdown] uses the fragments as chunks, untouched,
    when none is longer than [maxChunkSize]; as soon as one is longer, the
    chunks are those of [splitHtml] applied to all fragments joined by a
    blank line. *)
Theorem chunks_split_only_when_too_long maxChunkSize processedHtml :
  (Forall (fun curr : jsstring => (units curr <= maxChunkSize)%Q) processedHtml ->
   LlamaWriter.chunks_of maxChunkSize processedHtml = processedHtml) /\
  (Exists (fun curr : jsstring => (maxChunkSize < units curr)%Q) processedHtml ->
   LlamaWriter.chunks_of maxChunkSize processedHtml
   = Splitter.splitHtml (join [NL; NL] processedHtml) maxChunkSize).
Proof.
  split; intros H; [now apply chunks_of_short|].
  unfold LlamaWriter.chunks_of, LlamaWriter.splitHtml.
  rewrite any_too_long_existsb.
  - replace (existsb _ processedHtml) with true; [reflexivity|].
    symmetry. apply existsb_exists. apply Exists_exists in H as (x & Hin & Hx).
    exists x. split; [exact Hin|]. now apply length_gt_true.
Qed.

Lemma chunks_split_only_when_too_long_witness :
  LlamaWriter.chunks_of 5 [str "abc"; str "de fg"] = [str "abc"; str "de fg"] /\
  LlamaWriter.chunks_of 5 [str "abc"; str "de fgh"]
  = Splitter.splitHtml (join [NL; NL] [str "abc"; str "de fgh"]) 5.
Proof.
  split.
  - apply (proj1 (chunks_split_only_when_too_long 5 [str "abc"; str "de fg"])).
    repeat constructor; vm_compute; discriminate.
  - apply (proj2 (chunks_split_only_when_too_long 5 [str "abc"; str "de fgh"])).
    apply Exists_cons_tl, Exists_cons_hd. reflexivity.
Defined.

(** *** The rule store *)

Lemma getHtmlPreprocessRules_absent env domain s stored :
  HTML_PREPROCESS_get env (str "domain:" ++ LlamaWriter.strip_www domain) = Normal stored ->
  truthy_opt stored = false ->
  LlamaWriter.getHtmlPreprocessRules env domain s
  = (Normal [],
     mkWstate (docId s) (r2Key s)
              (trace s ++ [RulesGet (str "domain:" ++ LlamaWriter.strip_www domain)])).
Proof.
  intros Hget Hfalsy.
  unfold LlamaWriter.getHtmlPreprocessRules, bind, perform.
  rewrite Hget, Hfalsy. reflexivity.
Qed.

(** When the rule store holds nothing, or the empty text, for the domain,
    [getHtmlPreprocessRules] returns no rule after that one lookup, without
    parsing anything; the key is [domain:] followed by the host name, and a
    leading [www.] of the host name is not part of it. *)
Theorem rules_absent_for_domain env domain s stored :
  HTML_PREPROCESS_get env (str "domain:" ++ LlamaWriter.strip_www domain) = Normal stored ->
  truthy_opt stored = false ->
  LlamaWriter.getHtmlPreprocessRules env domain s
  = (Normal [],
     mkWstate (docId s) (r2Key s)
              (trace s ++ [RulesGet (str "domain:" ++ LlamaWriter.strip_www domain)])) /\
  forall host, LlamaWriter.strip_www (str "www." ++ host) = host.
Proof.
  intros Hget Hfalsy. split; [|reflexivity].
  exact (getHtmlPreprocessRules_absent env domain s stored Hget Hfalsy).
Qed.

Lemma rules_absent_for_domain_witness :
  LlamaWriter.getHtmlPreprocessRules model_null the_domain fresh
  = (Normal [], mkWstate None None [RulesGet (str "domain:example.com")]) /\
  forall host, LlamaWriter.strip_www (str "www." ++ host) = host.
Proof.
  apply (rules_absent_for_domain model_null the_domain fresh None); reflexivity.
Defined.



(** *** The outcomes of a run *)

Ltac pick :=
  cbn [fst];
  first [ now left
        | right; now left
        | right; right; now left
        | right; right; right; left; eexists; reflexivity
        | right; right; right; right; eexists; split; [eassumption|reflexivity] ].

(** The five ways in which [run] ends. *)
Lemma run_cases env url writeMarkdown additionalPrompt s :
  let r := fst (run env url writeMarkdown additionalPrompt s) in
  r = mkResult (str "URL not found in D1 PageMetadata") hardfail 404 None \/
  r = mkResult (str "HTML not found from R2") hardfail 404 None \/
  r = mkResult (str "Failed to generate markdown") hardfail 500 None \/
  (exists e, r = mkResult e softfail 500 None) \/
  (exists md, truthy md = true /\
              r = mkResult (str "Markdown saved to Knowledge Bucket") success 200 (Some md)).
Proof.
  unfold run, run_steps, bind, ret.
  destruct (loadPageMetadata env url s) as [[[|]|e1] s1]; cbn [negb]; [|pick|pick].
  destruct (getHtml env s1) as [[[html|]|e2] s2]; cbn [negb truthy_opt];
    [|pick|pick].
  destruct (truthy html); cbn [negb or_empty]; [|pick].
  destruct (writeMarkdown html additionalPrompt s2) as [[markdown|e3] s3]; [|pick].
  destruct (truthy markdown) eqn:Hm; cbn [negb]; [|pick].
  destruct (storeMarkdown env markdown s3) as [[[]|e4] s4]; [|pick].
  destruct (updatePageMetadata env s4) as [[[]|e5] s5]; pick.
Qed.

(** Whatever the services do, the result of [run] is consistent: status
    success goes with code 200 and with a non-empty markdown, and only with
    them; a softfail has code 500, a hardfail code 404 or 500, and neither
    carries markdown. *)
Theorem run_result_is_consistent env url writeMarkdown additionalPrompt s :
  let r := fst (run env url writeMarkdown additionalPrompt s) in
  (status_of r = success <-> code r = 200%Z) /\
  (status_of r = success <-> exists md, markdown r = Some md) /\
  (forall md, markdown r = Some md -> truthy md = true) /\
  (status_of r = softfail -> code r = 500%Z) /\
  (status_of r = hardfail -> code r = 404%Z \/ code r = 500%Z).
Proof.
  cbv zeta.
  destruct (run_cases env url writeMarkdown additionalPrompt s)
    as [H|[H|[H|[[e H]|[md [Hmd H]]]]]]; cbv zeta in H; rewrite H;
    cbn [status_of code markdown];
    repeat split; intros; try discriminate; try lia; try reflexivity;
    try (destruct H0; discriminate); eauto.
  congruence.
Qed.

Lemma run_result_is_consistent_witness :
  let r := fst (LlamaWriter.run model_down the_url the_domain 1024 20 (str "") fresh) in
  status_of r = softfail /\ code r = 500%Z /\ markdown r = None.
Proof.
  intros r.
  destruct (run_result_is_consistent model_down the_url
              (LlamaWriter.writeMarkdown model_down the_domain 1024 20) (str "") fresh)
    as (_ & _ & _ & Hsoft & _).
  assert (Hs : status_of r = softfail) by (vm_compute; reflexivity).
  split; [exact Hs|]. split; [exact (Hsoft Hs)|]. vm_compute. reflexivity.
Defined.

(** *** The steps of a run, in terms of the services *)

Lemma loadPageMetadata_found env url s r :
  PAGE_METADATA_first env url = Normal (Some r) ->
  loadPageMetadata env url s
  = (Normal true,
     mkWstate (Some (String_ (id r))) (Some (String_ (r2_path r)))
              (trace s ++ [MetadataSelect url])).
Proof.
  intros H. unfold loadPageMetadata, bind, perform, set_docId, set_r2Key, ret.
  rewrite H. reflexivity.
Qed.

Lemma getHtml_with_key env s key :
  r2Key s = Some key -> truthy key = true ->
  getHtml env s
  = match RAW_HTML_BUCKET_get env (key ++ str ".html") with
    | Throw e =>
        (Throw e, mkWstate (docId s) (r2Key s) (trace s ++ [RawHtmlGet (key ++ str ".html")]))
    | Normal None =>
        (Normal None,
         mkWstate (docId s) (r2Key s) (trace s ++ [RawHtmlGet (key ++ str ".html")]))
    | Normal (Some obj) =>
        (match obj with
         | Normal html => Normal (Some html)
         | Throw e => Throw e
         end,
         mkWstate (docId s) (r2Key s)
                  (trace s ++ [RawHtmlGet (key ++ str ".html");
                               RawHtmlText (key ++ str ".html")]))
    end.
Proof.
  intros Hk Ht. unfold getHtml, bind, get_r2Key, perform, ret, throw.
  rewrite Hk. cbn [truthy_opt or_empty]. rewrite Ht. cbn [negb].
  destruct (RAW_HTML_BUCKET_get env (key ++ str ".html")) as [[obj|]|e];
    cbn [docId r2Key trace]; rewrite ?Hk, <- ?app_assoc; try reflexivity.
  destruct obj; reflexivity.
Qed.

Lemma storeMarkdown_done env markdown s s' :
  storeMarkdown env markdown s = (Normal tt, s') ->
  s' = mkWstate (docId s) (r2Key s)
                (trace s ++ [KnowledgePut (or_empty (r2Key s) ++ str ".md") markdown]).
Proof.
  unfold storeMarkdown, bind, get_r2Key, perform, throw.
  destruct (truthy_opt (r2Key s)); cbn [negb]; [|discriminate].
  destruct (KNOWLEDGE_BUCKET_put env _ markdown) as [[]|]; [|discriminate].
  now intros [= <-].
Qed.

Lemma updatePageMetadata_done env s s' :
  updatePageMetadata env s = (Normal tt, s') ->
  s' = mkWstate (docId s) (r2Key s)
                (trace s ++ [MetadataUpdate (or_empty (docId s))]).
Proof.
  unfold updatePageMetadata, bind, get_docId, perform, throw.
  destruct (truthy_opt (docId s)); cbn [negb]; [|discriminate].
  destruct (PAGE_METADATA_update env _) as [[]|]; [|discriminate].
  now intros [= <-].
Qed.

Lemma updatePageMetadata_keeps_trace env s out s' c :
  updatePageMetadata env s = (out, s') -> In c (trace s) -> In c (trace s').
Proof.
  unfold updatePageMetadata, bind, get_docId, perform, throw.
  destruct (truthy_opt (docId s)); cbn [negb]; intros [= <- <-]; cbn [trace];
    auto using in_or_app.
Qed.

(** *** Content that is missing *)

(** When the raw bucket has no object for the page, or an object with
    empty text, the run is a hardfail with status 404 and [writeMarkdown] is
    never entered: the metadata lookup and the reading of the bucket are the
    only calls. *)
Theorem run_html_missing env url writeMarkdown additionalPrompt s r :
  let path := String_ (r2_path r) ++ str ".html" in
  let loaded t := mkWstate (Some (String_ (id r))) (Some (String_ (r2_path r)))
                           (trace s ++ MetadataSelect url :: RawHtmlGet path :: t) in
  PAGE_METADATA_first env url = Normal (Some r) ->
  truthy (String_ (r2_path r)) = true ->
  (RAW_HTML_BUCKET_get env path = Normal None ->
   run env url writeMarkdown additionalPrompt s
   = (mkResult (str "HTML not found from R2") hardfail 404 None, loaded [])) /\
  (RAW_HTML_BUCKET_get env path = Normal (Some (Normal [])) ->
   run env url writeMarkdown additionalPrompt s
   = (mkResult (str "HTML not found from R2") hardfail 404 None,
      loaded [RawHtmlText path])).
Proof.
  intros path loaded Hrow Hkey.
  pose proof (loadPageMetadata_found env url s r Hrow) as Hload.
  set (s1 := mkWstate (Some (String_ (id r))) (Some (String_ (r2_path r)))
                      (trace s ++ [MetadataSelect url])) in Hload.
  pose proof (getHtml_with_key env s1 (String_ (r2_path r)) eq_refl Hkey) as Hg.
  fold path in Hg.
  split; intros Hget; rewrite Hget in Hg; unfold run, run_steps;
    proceeds Hload; proceeds Hg; cbn [truthy negb];
    unfold ret, loaded, s1; cbn [docId r2Key trace]; now rewrite <- app_assoc.
Qed.

Lemma run_html_missing_witness :
  LlamaWriter.run page_not_stored the_url the_domain 1024 20 (str "") fresh
  = (mkResult (str "HTML not found from R2") hardfail 404 None,
     mkWstate (Some (str "7")) (Some (str "pages/7"))
              [MetadataSelect the_url; RawHtmlGet (str "pages/7.html")]).
Proof.
  apply (proj1 (run_html_missing page_not_stored the_url
                  (LlamaWriter.writeMarkdown page_not_stored the_domain 1024 20)
                  (str "") fresh (mkRow seven (VString (str "pages/7")))
                  eq_refl eq_refl)).
  reflexivity.
Defined.

(** *** Generation that yields nothing *)

(** When [writeMarkdown] returns the empty text, the run is a hardfail
    with status 500 and ends there: nothing is written to the knowledge
    bucket and the metadata is not updated. *)
Theorem run_empty_markdown env url writeMarkdown additionalPrompt s0 s1 s2 s3 html :
  loadPageMetadata env url s0 = (Normal true, s1) ->
  getHtml env s1 = (Normal (Some html), s2) ->
  truthy html = true ->
  writeMarkdown html additionalPrompt s2 = (Normal [], s3) ->
  run env url writeMarkdown additionalPrompt s0
  = (mkResult (str "Failed to generate markdown") hardfail 500 None, s3).
Proof.
  intros H1 H2 Ht H3. unfold run, run_steps.
  proceeds H1. proceeds H2. rewrite Ht. cbn [negb]. proceeds H3. reflexivity.
Qed.

Lemma run_empty_markdown_witness :
  GeminiWriter.run gemini_silent the_url 1024 (str "") fresh
  = (mkResult (str "Failed to generate markdown") hardfail 500 None,
     mkWstate (Some (str "7")) (Some (str "pages/7"))
              [MetadataSelect the_url;
               RawHtmlGet (str "pages/7.html");
               RawHtmlText (str "pages/7.html");
               GeminiSend (GeminiWriter.systemPrompts (str "")) 1024 (str "x") (str "")]).
Proof.
  apply (run_empty_markdown gemini_silent the_url
           (GeminiWriter.writeMarkdown gemini_silent 1024) (str "") fresh
           metadata_loaded content_loaded _ (str "<p style=color:red>x</p>"));
    vm_compute; reflexivity.
Defined.

(** *** What a successful run has done *)

Lemma run_success_trace env url writeMarkdown additionalPrompt s0 r s' :
  run env url writeMarkdown additionalPrompt s0 = (r, s') ->
  status_of r = success ->
  exists html s2 s3 md,
    writeMarkdown html additionalPrompt s2 = (Normal md, s3) /\
    markdown r = Some md /\
    trace s' = trace s3 ++ [KnowledgePut (or_empty (r2Key s3) ++ str ".md") md;
                            MetadataUpdate (or_empty (docId s3))].
Proof.
  unfold run, run_steps, bind, ret.
  destruct (loadPageMetadata env url s0) as [[[|]|e1] s1]; cbn [negb];
    try (intros [= <- <-]; discriminate).
  destruct (getHtml env s1) as [[[html|]|e2] s2]; cbn [negb truthy_opt];
    try (intros [= <- <-]; discriminate).
  destruct (truthy html); cbn [negb or_empty];
    try (intros [= <- <-]; discriminate).
  destruct (writeMarkdown html additionalPrompt s2) as [[md|e3] s3] eqn:H3;
    try (intros [= <- <-]; discriminate).
  destruct (truthy md); cbn [negb]; try (intros [= <- <-]; discriminate).
  destruct (storeMarkdown env md s3) as [[[]|e4] s4] eqn:H4;
    try (intros [= <- <-]; discriminate).
  destruct (updatePageMetadata env s4) as [[[]|e5] s5] eqn:H5;
    try (intros [= <- <-]; discriminate).
  intros [= <- <-] _.
  apply storeMarkdown_done in H4. apply updatePageMetadata_done in H5.
  subst s4 s5. cbn [docId r2Key trace markdown].
  exists html, s2, s3, md. rewrite <- app_assoc. auto.
Qed.

(** A run that reports success has, as its last two calls, written the
    markdown it reports to the knowledge bucket under the key of the page
    followed by [.md], and then updated the metadata row of the page. *)
Theorem run_success_has_stored env url writeMarkdown additionalPrompt s0 r s' :
  run env url writeMarkdown additionalPrompt s0 = (r, s') ->
  status_of r = success ->
  exists html s2 s3 md,
    writeMarkdown html additionalPrompt s2 = (Normal md, s3) /\
    markdown r = Some md /\
    trace s' = trace s3 ++ [KnowledgePut (or_empty (r2Key s3) ++ str ".md") md;
                            MetadataUpdate (or_empty (docId s3))].
Proof. apply run_success_trace. Qed.

Lemma run_success_has_stored_witness :
  exists html s2 s3 md,
    LlamaWriter.writeMarkdown all_well the_domain 1024 20 html (str "") s2
    = (Normal md, s3) /\
    md = str "# x" /\
    trace (snd (LlamaWriter.run all_well the_url the_domain 1024 20 (str "") fresh))
    = trace s3 ++ [KnowledgePut (or_empty (r2Key s3) ++ str ".md") md;
                   MetadataUpdate (or_empty (docId s3))].
Proof.
  destruct (run_success_has_stored all_well the_url
              (LlamaWriter.writeMarkdown all_well the_domain 1024 20) (str "") fresh
              (fst (LlamaWriter.run all_well the_url the_domain 1024 20 (str "") fresh))
              (snd (LlamaWriter.run all_well the_url the_domain 1024 20 (str "") fresh)))
    as (html & s2 & s3 & md & Hw & Hmd & Ht).
  - unfold LlamaWriter.run. apply surjective_pairing.
  - vm_compute. reflexivity.
  - exists html, s2, s3, md. repeat split; try assumption.
    vm_compute in Hmd. now injection Hmd as <-.
Defined.

(** *** Storage and metadata are not updated together *)

(** When the metadata update raises after the markdown has been written,
    the run is a softfail although the knowledge bucket already holds the
    markdown. *)
Theorem run_stored_but_softfail env url writeMarkdown additionalPrompt
        s0 s1 s2 s3 s4 s5 html md e :
  loadPageMetadata env url s0 = (Normal true, s1) ->
  getHtml env s1 = (Normal (Some html), s2) ->
  truthy html = true ->
  writeMarkdown html additionalPrompt s2 = (Normal md, s3) ->
  truthy md = true ->
  storeMarkdown env md s3 = (Normal tt, s4) ->
  updatePageMetadata env s4 = (Throw e, s5) ->
  run env url writeMarkdown additionalPrompt s0 = (mkResult e softfail 500 None, s5) /\
  In (KnowledgePut (or_empty (r2Key s3) ++ str ".md") md) (trace s5).
Proof.
  intros H1 H2 Ht H3 Hm H4 H5. split.
  - unfold run, run_steps.
    proceeds H1. proceeds H2. rewrite Ht. cbn [negb]. proceeds H3.
    rewrite Hm. cbn [negb]. proceeds H4. raises H5.
  - eapply updatePageMetadata_keeps_trace; [exact H5|].
    rewrite (storeMarkdown_done _ _ _ _ H4). cbn [trace].
    apply in_or_app. right. now left.
Qed.

Lemma run_stored_but_softfail_witness :
  status_of (fst (LlamaWriter.run update_fails the_url the_domain 1024 20 (str "") fresh))
  = softfail /\
  In (KnowledgePut (str "pages/7.md") (str "# x"))
     (trace (snd (LlamaWriter.run update_fails the_url the_domain 1024 20 (str "") fresh))).
Proof.
  destruct (run_stored_but_softfail update_fails the_url
              (LlamaWriter.writeMarkdown update_fails the_domain 1024 20) (str "") fresh
              metadata_loaded content_loaded generated stored update_attempted
              (str "<p style=color:red>x</p>") (str "# x") (str "D1 is busy"))
    as [Hrun Hin]; try (vm_compute; reflexivity).
  unfold LlamaWriter.run. rewrite Hrun. split; [reflexivity|exact Hin].
Defined.

(** *** The path read from the metadata row *)

(** The path of a metadata row is turned into text by [String]: the object
    asked of the raw bucket is that text followed by [.html], whatever the
    value was (for [null], the key [null.html]). The run stops at the
    guard of [getHtml] exactly when that text is empty, which is the case
    for the empty string, for an empty array and for an array of one
    element rendered as the empty text: it is then a softfail, with no
    call to the bucket. *)
Theorem metadata_path_is_coerced env url writeMarkdown additionalPrompt s r :
  let s1 := mkWstate (Some (String_ (id r))) (Some (String_ (r2_path r)))
                     (trace s ++ [MetadataSelect url]) in
  PAGE_METADATA_first env url = Normal (Some r) ->
  (truthy (String_ (r2_path r)) = false ->
   run env url writeMarkdown additionalPrompt s
   = (mkResult (str "r2Key is not set before calling getHtml()") softfail 500 None, s1)) /\
  (truthy (String_ (r2_path r)) = true ->
   exists out t,
     getHtml env s1
     = (out, mkWstate (docId s1) (r2Key s1)
                      (trace s1 ++ RawHtmlGet (String_ (r2_path r) ++ str ".html") :: t))) /\
  (truthy (String_ (r2_path r)) = false <->
   r2_path r = VString [] \/ r2_path r = VArray [] \/
   exists item, r2_path r = VArray [item] /\
                (item = VUndefined \/ item = VNull \/ truthy (String_ item) = false)).
Proof.
  intros s1 Hrow.
  pose proof (loadPageMetadata_found env url s r Hrow) as Hload. fold s1 in Hload.
  split; [|split]; [intros Hpath|intros Hkey|apply String_falsy].
  - unfold run, run_steps. proceeds Hload.
    erewrite bind_throw; [reflexivity|].
    unfold getHtml, bind, get_r2Key, throw. unfold s1.
    cbn [r2Key truthy_opt]. rewrite Hpath. reflexivity.
  - rewrite (getHtml_with_key env s1 (String_ (r2_path r)) eq_refl Hkey).
    destruct (RAW_HTML_BUCKET_get env (String_ (r2_path r) ++ str ".html"))
      as [[obj|]|e]; eauto.
Qed.

Lemma metadata_path_is_coerced_witness :
  exists out t,
    getHtml null_path
            (mkWstate (Some (str "7")) (Some (str "null")) [MetadataSelect the_url])
    = (out, mkWstate (Some (str "7")) (Some (str "null"))
                     ([MetadataSelect the_url] ++ RawHtmlGet (str "null.html") :: t)).
Proof.
  apply (proj1 (proj2 (metadata_path_is_coerced null_path the_url
                         (LlamaWriter.writeMarkdown null_path the_domain 1024 20)
                         (str "") fresh (mkRow seven VNull) eq_refl))).
  reflexivity.
Defined.

End WriterMoreFacts.

(* ================================================================== *)
(** ** Properties of the entry points *)
(* ================================================================== *)

Module IndexFacts.
Import Extractor Prompt Runtime Index Scenarios MoreScenarios.

(** *** Authorization *)

Lemma replace_first_after pattern replacement before rest c :
  pattern = c :: skipn 1 pattern ->
  ~ In c before ->
  replace_first pattern replacement (before ++ pattern ++ rest)
  = before ++ replacement ++ rest.
Proof.
  intros Hp Hb. induction before as [|x before IH].
  - cbn [app]. destruct (pattern ++ rest) eqn:E.
    + destruct pattern; [discriminate|discriminate].
    + rewrite <- E. clear E.
      assert (Hs : starts_with pattern (pattern ++ rest) = true).
      { clear. induction pattern as [|y p IHp]; [reflexivity|].
        cbn. unfold char_eqb. now rewrite N.eqb_refl, IHp. }
      destruct (pattern ++ rest) eqn:E; cbn [replace_first]; rewrite Hs;
        rewrite <- E, skipn_app, Nat.sub_diag, skipn_all; reflexivity.
  - cbn [app replace_first].
    assert (Hs : starts_with pattern (x :: before ++ pattern ++ rest) = false).
    { rewrite Hp. cbn. unfold char_eqb.
      replace (c =? x)%N with false; [reflexivity|].
      symmetry. apply N.eqb_neq. intros ->. apply Hb. now left. }
    rewrite Hs. f_equal. apply IH. intros H. apply Hb. now right.
Qed.

(** What [apiKey !== env.API_TOKEN] lets through. *)
Lemma authorized_iff b req :
  authorized b req = true <->
  (exists header token,
      authorization req = Some header /\ API_TOKEN b = Some token /\
      replace_first (str "Bearer ") [] header = token) \/
  (authorization req = None /\ API_TOKEN b = None).
Proof.
  unfold authorized, apiKey.
  destruct (authorization req) as [h|], (API_TOKEN b) as [t|]; cbn [option_map].
  - rewrite ExtractorFacts.jsstring_eqb_eq. split.
    + intros H. left. now exists h, t.
    + intros [(h' & t' & [= <-] & [= <-] & H)|[H _]]; [exact H|discriminate].
  - split; [discriminate|].
    intros [(h' & t' & _ & H & _)|[H _]]; discriminate.
  - split; [discriminate|].
    intros [(h' & t' & H & _)|[_ H]]; discriminate.
  - split; [|reflexivity]. intros _. right. now split.
Qed.

(** No run of a writer ends with the code 401. *)
Lemma run_code_not_401 env url writeMarkdown additionalPrompt s :
  code (fst (BaseWriter.run env url writeMarkdown additionalPrompt s)) <> 401%Z.
Proof.
  destruct (WriterMoreFacts.run_cases env url writeMarkdown additionalPrompt s)
    as [H|[H|[H|[(e & H)|(md & _ & H)]]]]; rewrite H; discriminate.
Qed.

(** [fetch] answers 401 only at its first test. *)
Lemma fetch_401_iff env b req :
  fetch env b req = (Normal (failed 401 (str "Unauthorized")), []) <->
  authorized b req = false.
Proof.
  unfold fetch. destruct (authorized b req); cbn [negb]; [|tauto].
  split; [|discriminate]. intros H. exfalso. revert H.
  destruct (negb (jsstring_eqb (method req) (str "POST"))
            && negb (jsstring_eqb (method req) (str "PUT")));
    [discriminate|].
  destruct (json req) as [body|e]; [|discriminate].
  destruct (negb (truthy (url body))); [discriminate|].
  destruct (jsstring_eqb (method req) (str "POST")).
  - destruct (writer_for env b body) as [writeMarkdown|e]; [|discriminate].
    destruct (run_writer env body writeMarkdown) as [r s] eqn:Hrun.
    intros [= H _].
    assert (Hcode : code r = 401%Z).
    { unfold reply_of in H.
      destruct (jsstring_eqb (RETURN_MARKDOWN b) (str "true"));
        now injection H. }
    apply (run_code_not_401 env (url body) writeMarkdown
                            (or_empty (additionalPrompt body)) fresh).
    unfold run_writer in Hrun. now rewrite Hrun.
  - destruct (CREATE_MARKDOWN_QUEUE_send b body); discriminate.
Qed.

(** [fetch] refuses a request, with the reply 401 and without doing
    anything else, unless the Authorization header with the first
    occurrence of [Bearer ] taken out is the token, or the header is
    absent and the token is not set either. So a header that is
    [Bearer ] followed by the token is let through, and so is the token
    with [Bearer ] inserted at any place that no [B] comes before; a
    request without the header is refused exactly when a token is set. *)
Theorem authorization_accepts env b req :
  let refused :=
    fetch env b req = (Normal (failed 401 (str "Unauthorized")), []) in
  (refused <->
   ~ ((exists header token,
          authorization req = Some header /\ API_TOKEN b = Some token /\
          replace_first (str "Bearer ") [] header = token) \/
      (authorization req = None /\ API_TOKEN b = None))) /\
  (forall before rest,
      ~ In 66%N before ->
      API_TOKEN b = Some (before ++ rest) ->
      authorization req = Some (before ++ str "Bearer " ++ rest) ->
      ~ refused) /\
  (authorization req = None -> (refused <-> API_TOKEN b <> None)).
Proof.
  intros refused. unfold refused. clear refused.
  pose proof (authorized_iff b req) as Hiff.
  split; [|split].
  - rewrite fetch_401_iff, <- Hiff.
    destruct (authorized b req); split; congruence.
  - intros before rest Hb Htoken Hheader Hrefused.
    apply fetch_401_iff in Hrefused.
    assert (Hok : authorized b req = true).
    { apply Hiff. left. exists (before ++ str "Bearer " ++ rest), (before ++ rest).
      split; [exact Hheader|]. split; [exact Htoken|].
      exact (replace_first_after (str "Bearer ") [] before rest 66%N eq_refl Hb). }
    congruence.
  - intros Hnone. rewrite fetch_401_iff.
    unfold authorized, apiKey. rewrite Hnone. cbn [option_map].
    destruct (API_TOKEN b); split; congruence.
Qed.

Lemma authorization_accepts_witness :
  fetch all_well bindings
        (mkRequest (Some (str "secBearer ret")) (str "POST") (Normal page_body))
  <> (Normal (failed 401 (str "Unauthorized")), []).
Proof.
  apply (proj1 (proj2 (authorization_accepts
                         all_well bindings
                         (mkRequest (Some (str "secBearer ret")) (str "POST")
                                    (Normal page_body))))
               (str "sec") (str "ret")).
  - vm_compute. intuition discriminate.
  - reflexivity.
  - reflexivity.
Defined.

(** *** What [fetch] does to the outside *)

(** [fetch] touches the outside only for a request that passed the
    authorization test (its header with the first [Bearer ] taken out is
    the token, or header and token are both absent), has a body with a
    non-empty url and is a POST or a PUT: a POST makes the calls of one
    run of a writer and sends nothing to the queue, a PUT sends the body
    to the queue and calls no service. *)
Theorem fetch_effects_are_guarded env b req out effs :
  fetch env b req = (out, effs) ->
  effs <> [] ->
  ((exists header token,
       authorization req = Some header /\ API_TOKEN b = Some token /\
       replace_first (str "Bearer ") [] header = token) \/
   (authorization req = None /\ API_TOKEN b = None)) /\
  exists body,
    json req = Normal body /\ truthy (url body) = true /\
    ((method req = str "POST" /\
      exists writeMarkdown,
        writer_for env b body = Normal writeMarkdown /\
        effs = map Service (trace (snd (run_writer env body writeMarkdown)))) \/
     (method req = str "PUT" /\ effs = [Enqueue body])).
Proof.
  rewrite <- authorized_iff. unfold fetch.
  destruct (authorized b req); cbn [negb]; [|intros [= <- <-]; contradiction].
  destruct (jsstring_eqb (method req) (str "POST")) eqn:Hpost; cbn [negb andb].
  - apply ExtractorFacts.jsstring_eqb_eq in Hpost.
    destruct (json req) as [body|e]; [|intros [= <- <-]; contradiction].
    destruct (truthy (url body)) eqn:Hurl; cbn [negb];
      [|intros [= <- <-]; contradiction].
    destruct (writer_for env b body) as [writeMarkdown|e] eqn:Hw;
      [|intros [= <- <-]; contradiction].
    destruct (run_writer env body writeMarkdown) as [r s] eqn:Hrun.
    intros [= <- <-] _. split; [reflexivity|].
    exists body. split; [reflexivity|]. split; [exact Hurl|].
    left. split; [exact Hpost|].
    exists writeMarkdown. split; [exact Hw|]. now rewrite Hrun.
  - destruct (jsstring_eqb (method req) (str "PUT")) eqn:Hput; cbn [negb];
      [|intros [= <- <-]; contradiction].
    apply ExtractorFacts.jsstring_eqb_eq in Hput.
    destruct (json req) as [body|e]; [|intros [= <- <-]; contradiction].
    destruct (truthy (url body)) eqn:Hurl; cbn [negb];
      [|intros [= <- <-]; contradiction].
    destruct (CREATE_MARKDOWN_QUEUE_send b body); intros [= <- <-] _;
      (split; [reflexivity|]); exists body;
      (split; [reflexivity|]); (split; [exact Hurl|]); right; now split.
Qed.

Lemma code_200_is_success env url writeMarkdown additionalPrompt s :
  code (fst (BaseWriter.run env url writeMarkdown additionalPrompt s)) = 200%Z ->
  status_of (fst (BaseWriter.run env url writeMarkdown additionalPrompt s)) = success.
Proof.
  destruct (WriterMoreFacts.run_cases env url writeMarkdown additionalPrompt s)
    as [H|[H|[H|[[e H]|[md [Hmd H]]]]]]; cbv zeta in H; rewrite H;
    cbn [code status_of]; try discriminate; reflexivity.
Qed.

Lemma fetch_effects_are_guarded_witness :
  ((exists header token,
       authorization post_request = Some header /\
       API_TOKEN bindings = Some token /\
       replace_first (str "Bearer ") [] header = token) \/
   (authorization post_request = None /\ API_TOKEN bindings = None)) /\
  exists body,
    json post_request = Normal body /\ truthy (url body) = true /\
    ((method post_request = str "POST" /\
      exists writeMarkdown,
        writer_for all_well bindings body = Normal writeMarkdown /\
        snd (fetch all_well bindings post_request)
        = map Service (trace (snd (run_writer all_well body writeMarkdown)))) \/
     (method post_request = str "PUT" /\
      snd (fetch all_well bindings post_request) = [Enqueue body])).
Proof.
  apply (fetch_effects_are_guarded all_well bindings post_request
           (fst (fetch all_well bindings post_request))).
  - apply surjective_pairing.
  - vm_compute. discriminate.
Defined.

(** A reply with status 200 is given only after the markdown has been
    written to the knowledge bucket and the metadata updated, as the last
    two effects of the request; when [RETURN_MARKDOWN] is [true] the reply
    carries the markdown that was written. *)
Theorem fetch_200_means_stored env b req reply effs :
  fetch env b req = (Normal reply, effs) ->
  http_status reply = 200%Z ->
  exists before key md doc,
    effs = before ++ [Service (KnowledgePut key md); Service (MetadataUpdate doc)] /\
    (RETURN_MARKDOWN b = str "true" -> markdown_field reply = Some md).
Proof.
  unfold fetch.
  destruct (authorized b req); cbn [negb]; [|intros [= <- <-]; discriminate].
  destruct (negb (jsstring_eqb (method req) (str "POST"))
            && negb (jsstring_eqb (method req) (str "PUT")));
    [intros [= <- <-]; discriminate|].
  destruct (json req) as [body|e]; [|discriminate].
  destruct (truthy (url body)); cbn [negb]; [|intros [= <- <-]; discriminate].
  destruct (jsstring_eqb (method req) (str "POST")).
  - destruct (writer_for env b body) as [writeMarkdown|e]; [|discriminate].
    unfold run_writer.
    destruct (BaseWriter.run env (url body) writeMarkdown
                             (or_empty (additionalPrompt body)) fresh)
      as [r s] eqn:Hrun.
    intros [= <- <-] Hcode.
    assert (Hc : code r = 200%Z).
    { unfold reply_of in Hcode.
      destruct (jsstring_eqb (RETURN_MARKDOWN b) (str "true")); exact Hcode. }
    pose proof (code_200_is_success env (url body) writeMarkdown
                                    (or_empty (additionalPrompt body)) fresh) as Hs.
    rewrite Hrun in Hs. specialize (Hs Hc).
    destruct (WriterMoreFacts.run_success_trace _ _ _ _ _ _ _ Hrun Hs)
      as (html & s2 & s3 & md & _ & Hmd & Ht).
    exists (map Service (trace s3)), (or_empty (r2Key s3) ++ str ".md"), md,
      (or_empty (docId s3)).
    split.
    + rewrite Ht, map_app. reflexivity.
    + intros Hret. unfold reply_of. rewrite Hret. cbn. exact Hmd.
  - destruct (CREATE_MARKDOWN_QUEUE_send b body); intros [= <- <-]; discriminate.
Qed.

Lemma fetch_200_means_stored_witness :
  exists before key md doc,
    snd (fetch all_well bindings post_request)
    = before ++ [Service (KnowledgePut key md); Service (MetadataUpdate doc)] /\
    (RETURN_MARKDOWN bindings = str "true" ->
     Some (str "# x") = Some md).
Proof.
  apply (fetch_200_means_stored all_well bindings post_request
           (mkReply 200 (str "Markdown saved to Knowledge Bucket") (str "success")
                    (Some (str "# x")) None)
           (snd (fetch all_well bindings post_request))).
  - vm_compute. reflexivity.
  - reflexivity.
Defined.

(** *** The queue consumer *)

Lemma filter_services l : filter is_settling (map Service l) = [].
Proof. induction l as [|c l IH]; [reflexivity|exact IH]. Qed.

Lemma settle_is_settling index s : is_settling (settle index s) = true.
Proof. now destruct s. Qed.

Lemma consume_settles env b messages :
  forall index effs,
    consume env b messages index = (Normal tt, effs) ->
    filter is_settling effs = map_indexed (settled env b) index messages.
Proof.
  induction messages as [|body rest IH]; intros index effs; cbn [consume map_indexed].
  - now intros [= <-].
  - unfold settled at 1, message_status.
    destruct (writer_for env b body) as [writeMarkdown|e]; [|discriminate].
    destruct (run_writer env body writeMarkdown) as [r s].
    destruct (consume env b rest (S index)) as [outcome later] eqn:Hrest.
    intros [= -> <-]. cbn [fst].
    rewrite filter_app, filter_services. cbn [app filter].
    rewrite settle_is_settling, (IH _ _ Hrest).
    reflexivity.
Qed.

(** When [queue] returns, every message of the batch has been settled
    exactly once, in the order of the batch: it is retried when its run
    ended as a softfail, and acknowledged otherwise. *)
Theorem queue_settles_each_message env b batch effs :
  queue env b batch = (Normal tt, effs) ->
  filter is_settling effs = map_indexed (settled env b) 0 batch /\
  length (filter is_settling effs) = length batch.
Proof.
  intros H. apply consume_settles in H. split; [exact H|].
  rewrite H. apply PromptFacts.map_indexed_length.
Qed.

Lemma queue_settles_each_message_witness :
  filter is_settling (snd (queue model_down bindings [page_body; gemini_body]))
  = [Retry 0; Ack 1].
Proof.
  assert (Hq : queue model_down bindings [page_body; gemini_body]
               = (Normal tt, snd (queue model_down bindings [page_body; gemini_body])))
    by (vm_compute; reflexivity).
  destruct (queue_settles_each_message model_down bindings [page_body; gemini_body]
              (snd (queue model_down bindings [page_body; gemini_body])) Hq)
    as [H _].
  rewrite H. vm_compute. reflexivity.
Defined.

(** A message for [LlamaWriter] whose url is no URL makes the constructor
    raise, and the exception leaves [queue]: the messages before it have
    been settled, that message and all those after it are neither
    acknowledged nor retried, and no service is called for them. *)
Theorem queue_stops_at_bad_url env b before bad rest e :
  is_gemini bad = false ->
  URL_hostname b (url bad) = Throw e ->
  forall index effs,
    consume env b before index = (Normal tt, effs) ->
    consume env b (before ++ bad :: rest) index = (Throw e, effs).
Proof.
  intros Hg Hurl.
  assert (Hbad : writer_for env b bad = Throw e).
  { unfold writer_for. now rewrite Hg, Hurl. }
  induction before as [|body before IH]; intros index effs; cbn [app consume].
  - intros [= <-]. now rewrite Hbad.
  - destruct (writer_for env b body) as [writeMarkdown|e']; [|discriminate].
    destruct (run_writer env body writeMarkdown) as [r s].
    destruct (consume env b before (S index)) as [outcome later] eqn:Hbefore.
    intros [= -> <-]. now rewrite (IH _ _ Hbefore).
Qed.

Lemma queue_stops_at_bad_url_witness :
  queue gemini_silent strict_bindings [gemini_body; page_body; gemini_body]
  = (Throw (str "Invalid URL"),
     snd (queue gemini_silent strict_bindings [gemini_body])) /\
  filter is_settling (snd (queue gemini_silent strict_bindings [gemini_body])) = [Ack 0].
Proof.
  split; [|vm_compute; reflexivity].
  apply (queue_stops_at_bad_url gemini_silent strict_bindings
           [gemini_body] page_body [gemini_body] (str "Invalid URL")
           eq_refl eq_refl 0).
  vm_compute. reflexivity.
Defined.

End IndexFacts.

(* ================================================================== *)
(** ** Properties of the stand-alone worker *)
(* ================================================================== *)

Module StandaloneFacts.
Import Extractor Prompt Runtime Standalone Scenarios MoreScenarios.

Lemma bind_throw_inv {A B} (m : M A) (k : A -> M B) s e s' :
  bind m k s = (Throw e, s') ->
  m s = (Throw e, s') \/ exists a s1, m s = (Normal a, s1) /\ k a s1 = (Throw e, s').
Proof.
  unfold bind. destruct (m s) as [[a|e1] s1].
  - intros H. right. now exists a, s1.
  - intros [= <- <-]. now left.
Qed.

Lemma bind_normal_inv {A B} (m : M A) (k : A -> M B) s b s' :
  bind m k s = (Normal b, s') ->
  exists a s1, m s = (Normal a, s1) /\ k a s1 = (Normal b, s').
Proof.
  unfold bind. destruct (m s) as [[a|e1] s1]; [|discriminate].
  intros H. now exists a, s1.
Qed.

Lemma rethrow_as_throw {A} message (m : M A) s e s' :
  rethrow_as message m s = (Throw e, s') -> e = message.
Proof.
  unfold rethrow_as. destruct (m s) as [[a|e1] s1]; [discriminate|].
  now intros [= <- _].
Qed.

Lemma rethrow_as_normal {A} message (m : M A) s a s' :
  rethrow_as message m s = (Normal a, s') -> m s = (Normal a, s').
Proof.
  unfold rethrow_as. destruct (m s) as [[a1|e1] s1]; [|discriminate].
  now intros [= <- <-].
Qed.

Ltac known := unfold failure_messages; cbn [In]; tauto.

(** The five steps raise only their own fixed messages. *)
Lemma serve_throws env b reqUrl domain maxChunkSize maxTokens additionalPrompt s e s' :
  serve env b reqUrl domain maxChunkSize maxTokens additionalPrompt s = (Throw e, s') ->
  In e failure_messages.
Proof.
  unfold serve. intros H.
  apply bind_throw_inv in H as [H|([docId r2Key] & s1 & _ & H)].
  { apply rethrow_as_throw in H. subst e. known. }
  destruct (negb (truthy_opt docId) || negb (truthy_opt r2Key)); [discriminate|].
  apply bind_throw_inv in H as [H|(html & s2 & _ & H)].
  { apply rethrow_as_throw in H. subst e. known. }
  destruct (negb (truthy_opt html)); [discriminate|].
  apply bind_throw_inv in H as [H|(rules & s3 & _ & H)].
  { apply rethrow_as_throw in H. subst e. known. }
  apply bind_throw_inv in H as [H|([markdown messages] & s4 & _ & H)].
  { apply rethrow_as_throw in H. subst e. known. }
  apply bind_throw_inv in H as [H|([] & s5 & _ & H)].
  - unfold storeMarkdownAndUpdatePageMetadata in H.
    apply bind_throw_inv in H as [H|([] & s5 & _ & H)];
      apply rethrow_as_throw in H; subst e; known.
  - destruct (jsstring_eqb (Index.RETURN_MARKDOWN b) (str "true")); discriminate.
Qed.

(** The message of a reply with status 500 is one of seven fixed texts:
    what a failing service said never reaches the caller. *)
Theorem standalone_failure_messages_are_fixed env b req reply calls :
  fetch env b req = (Normal reply, calls) ->
  http_status reply = 500%Z ->
  In (message_field reply) failure_messages.
Proof.
  unfold fetch.
  destruct (Index.authorized b req); cbn [negb]; [|intros [= <- <-]; discriminate].
  destruct (jsstring_eqb (Index.method req) (str "POST")); cbn [negb];
    [|intros [= <- <-]; discriminate].
  destruct (Index.json req) as [body|e]; [|discriminate].
  destruct (truthy (Index.url body)); cbn [negb]; [|intros [= <- <-]; discriminate].
  destruct (Index.URL_hostname b (Index.url body)) as [domain|e]; [|discriminate].
  destruct (serve env b (Index.url body) domain
                  (or_nonzero (Index.maxChunkSize body) Worker.DEFAULT_MAX_CHUNK_SIZE)
                  (or_nonzero (Index.maxTokens body) Worker.DEFAULT_MAX_TOKENS)
                  (or_empty (Index.additionalPrompt body)) fresh)
    as [[r|e] s] eqn:Hserve.
  - intros [= <- <-] Hcode. exfalso. revert Hserve Hcode. unfold serve. intros H.
    apply bind_normal_inv in H as ([docId r2Key] & s1 & _ & H).
    destruct (negb (truthy_opt docId) || negb (truthy_opt r2Key));
      [injection H as <- _; discriminate|].
    apply bind_normal_inv in H as (html & s2 & _ & H).
    destruct (negb (truthy_opt html)); [injection H as <- _; discriminate|].
    apply bind_normal_inv in H as (rules & s3 & _ & H).
    apply bind_normal_inv in H as ([markdown messages] & s4 & _ & H).
    apply bind_normal_inv in H as ([] & s5 & _ & H).
    destruct (jsstring_eqb (Index.RETURN_MARKDOWN b) (str "true"));
      injection H as <- _; discriminate.
  - intros [= <- <-] _. cbn [message_field failed]. eapply serve_throws. exact Hserve.
Qed.

Lemma standalone_failure_messages_are_fixed_witness :
  fetch model_down bindings post_request
  = (Normal (failed 500 (str "Failed to generate markdown")),
     snd (fetch model_down bindings post_request)) /\
  In (str "Failed to generate markdown") failure_messages.
Proof.
  split; [vm_compute; reflexivity|].
  apply (standalone_failure_messages_are_fixed model_down bindings post_request
           (failed 500 (str "Failed to generate markdown"))
           (snd (fetch model_down bindings post_request)));
    vm_compute; reflexivity.
Defined.

(** *** What a reply with status 200 stands for *)

Lemma extends_refl s : extends s s.
Proof. exists []. now rewrite app_nil_r. Qed.

Lemma extends_trans s1 s2 s3 : extends s1 s2 -> extends s2 s3 -> extends s1 s3.
Proof. intros [t1 H1] [t2 H2]. exists (t1 ++ t2). now rewrite H2, H1, app_assoc. Qed.

Lemma extends_keeps s s' c : extends s s' -> In c (trace s) -> In c (trace s').
Proof. intros [t H] Hin. rewrite H. apply in_or_app. now left. Qed.

Lemma getHtml_asks env key s html s' :
  getHtml env key s = (Normal html, s') -> In (RawHtmlGet key) (trace s').
Proof.
  intros H. apply rethrow_as_normal in H.
  unfold bind, perform, ret in H.
  destruct (RAW_HTML_BUCKET_get env key) as [[obj|]|e]; [| |discriminate].
  - destruct obj; [|discriminate]. injection H as _ <-. cbn [trace].
    apply in_or_app. left. apply in_or_app. right. now left.
  - injection H as _ <-. cbn [trace]. apply in_or_app. right. now left.
Qed.

Lemma getHtmlPreprocessRules_extends env domain s rules s' :
  getHtmlPreprocessRules env domain s = (Normal rules, s') -> extends s s'.
Proof.
  intros H. apply rethrow_as_normal in H.
  unfold bind, perform, ret, lift in H.
  destruct (HTML_PREPROCESS_get env _) as [stored|e]; [|discriminate].
  destruct (negb (truthy_opt stored)).
  - injection H as _ <-. now eexists.
  - destruct (JSON_parse_rules env _); [|discriminate].
    injection H as _ <-. now eexists.
Qed.

Lemma generateMarkdown_done env chunks title additionalPrompt maxTokens s md msgs s' :
  generateMarkdown env chunks title additionalPrompt maxTokens s = (Normal (md, msgs), s') ->
  extends s s' /\
  exists v, AI_run env (AI_MODEL env) (Worker.messages title chunks additionalPrompt)
                   maxTokens = Normal (mkResponse v) /\
            md = String_ v.
Proof.
  intros H. apply rethrow_as_normal in H.
  unfold bind, perform, ret in H.
  destruct (AI_run env _ _ maxTokens) as [[v]|e] eqn:Hai; [|discriminate].
  injection H as <- _ <-. split; [now eexists|]. now exists v.
Qed.

Lemma store_done env docId r2Key markdown s s' :
  storeMarkdownAndUpdatePageMetadata env docId r2Key markdown s = (Normal tt, s') ->
  trace s' = trace s ++ [KnowledgePut r2Key markdown; MetadataUpdate docId].
Proof.
  unfold storeMarkdownAndUpdatePageMetadata. intros H.
  apply bind_normal_inv in H as ([] & s1 & H1 & H2).
  apply rethrow_as_normal in H1. apply rethrow_as_normal in H2.
  unfold perform in H1, H2.
  injection H1 as _ <-. injection H2 as _ <-. cbn [trace].
  now rewrite <- app_assoc.
Qed.

(** A reply with status 200 is given only after the markdown has been
    written to the knowledge bucket under the very key from which the raw
    HTML was read, and the metadata updated, as the last two calls. *)
Theorem standalone_200_means_stored env b req reply calls :
  fetch env b req = (Normal reply, calls) ->
  http_status reply = 200%Z ->
  exists before key md doc,
    calls = before ++ [KnowledgePut key md; MetadataUpdate doc] /\
    In (RawHtmlGet key) before /\
    (Index.RETURN_MARKDOWN b = str "true" -> markdown_field reply = Some md).
Proof.
  unfold fetch.
  destruct (Index.authorized b req); cbn [negb]; [|intros [= <- <-]; discriminate].
  destruct (jsstring_eqb (Index.method req) (str "POST")); cbn [negb];
    [|intros [= <- <-]; discriminate].
  destruct (Index.json req) as [body|e]; [|discriminate].
  destruct (truthy (Index.url body)); cbn [negb]; [|intros [= <- <-]; discriminate].
  destruct (Index.URL_hostname b (Index.url body)) as [domain|e]; [|discriminate].
  destruct (serve env b (Index.url body) domain
                  (or_nonzero (Index.maxChunkSize body) Worker.DEFAULT_MAX_CHUNK_SIZE)
                  (or_nonzero (Index.maxTokens body) Worker.DEFAULT_MAX_TOKENS)
                  (or_empty (Index.additionalPrompt body)) fresh)
    as [[r|e] s] eqn:Hserve; [|intros [= <- <-]; discriminate].
  intros [= <- <-] Hcode. revert Hserve. unfold serve. intros H.
  apply bind_normal_inv in H as ([docId r2Key] & s1 & _ & H).
  destruct (negb (truthy_opt docId) || negb (truthy_opt r2Key));
    [injection H as <- _; discriminate|].
  apply bind_normal_inv in H as (html & s2 & Hhtml & H).
  destruct (negb (truthy_opt html)); [injection H as <- _; discriminate|].
  apply bind_normal_inv in H as (rules & s3 & Hrules & H).
  apply bind_normal_inv in H as ([markdown messages] & s4 & Hgen & H).
  apply bind_normal_inv in H as ([] & s5 & Hstore & H).
  apply getHtml_asks in Hhtml.
  apply getHtmlPreprocessRules_extends in Hrules.
  apply generateMarkdown_done in Hgen as [Hgen _].
  apply store_done in Hstore.
  exists (trace s4), (or_empty r2Key), markdown, (or_empty docId).
  assert (Hs : s = s5 /\ (Index.RETURN_MARKDOWN b = str "true" ->
                          markdown_field r = Some markdown)).
  { destruct (jsstring_eqb (Index.RETURN_MARKDOWN b) (str "true")) eqn:E;
      injection H as <- <-; split; try reflexivity.
    intros Hret. rewrite Hret in E. discriminate. }
  destruct Hs as [-> Hmd].
  repeat split; try assumption.
  eapply extends_keeps; [|exact Hhtml]. eapply extends_trans; eassumption.
Qed.

Lemma standalone_200_means_stored_witness :
  exists before key md doc,
    snd (fetch all_well bindings post_request)
    = before ++ [KnowledgePut key md; MetadataUpdate doc] /\
    In (RawHtmlGet key) before /\
    (Index.RETURN_MARKDOWN bindings = str "true" -> Some (str "# x") = Some md).
Proof.
  apply (standalone_200_means_stored all_well bindings post_request
           (mkReply 200 (str "Markdown saved to Knowledge Bucket") (str "success")
                    (Some (str "# x"))
                    (Some (Worker.messages (str "") [str "x"] (str ""))))
           (snd (fetch all_well bindings post_request))).
  - vm_compute. reflexivity.
  - reflexivity.
Defined.



End StandaloneFacts.

(* ================================================================== *)
(** ** Properties of the first [preprocessHTML] *)
(* ================================================================== *)

Module LegacyFacts.
Import Dom Extractor Legacy.

Lemma each_selector_adds ch doc selectors :
  forall processedHtml,
  exists extra,
    each_selector ch doc selectors processedHtml = processedHtml ++ extra /\
    Forall (fun fragment => truthy fragment = true) extra /\
    length extra <= length selectors.
Proof.
  induction selectors as [|selector rest IH]; intros processedHtml; cbn [each_selector].
  - exists []. rewrite app_nil_r. repeat split; [constructor|cbn; lia].
  - destruct (query ch doc (Some selector)) as [selected|e].
    + destruct (truthy (or_empty (sel_html ch doc selected))) eqn:Ht.
      * destruct (IH (processedHtml ++ [or_empty (sel_html ch doc selected)]))
          as (extra & -> & Hall & Hlen).
        exists (or_empty (sel_html ch doc selected) :: extra).
        rewrite <- app_assoc. repeat split; [now constructor|cbn; lia].
      * destruct (IH processedHtml) as (extra & -> & Hall & Hlen).
        exists extra. repeat split; [assumption|cbn; lia].
    + exists []. rewrite app_nil_r. repeat split; [constructor|cbn; lia].
Qed.

Lemma each_rule_adds ch doc processedHtml ruleArr :
  exists extra,
    each_rule ch doc processedHtml ruleArr = processedHtml ++ extra /\
    Forall (fun fragment => truthy fragment = true) extra /\
    length extra <= length (selectors_of ruleArr).
Proof.
  unfold each_rule, selectors_of.
  assert (Hnone : exists extra,
             processedHtml = processedHtml ++ extra /\
             Forall (fun fragment => truthy fragment = true) extra /\
             length extra <= 0).
  { exists []. rewrite app_nil_r. repeat split; [constructor|cbn; lia]. }
  destruct (split (str "::") ruleArr) as [|ruleType [|paramStr more]];
    try exact Hnone.
  - destruct (jsstring_eqb ruleType (str "css")); exact Hnone.
  - destruct (jsstring_eqb ruleType (str "css")); [|exact Hnone].
    apply each_selector_adds.
Qed.

Lemma fold_rules_adds ch doc rules :
  forall processedHtml,
  exists extra,
    fold_left (each_rule ch doc) rules processedHtml = processedHtml ++ extra /\
    Forall (fun fragment => truthy fragment = true) extra /\
    length extra <= length (flat_map selectors_of rules).
Proof.
  induction rules as [|ruleArr rest IH]; intros processedHtml; cbn [fold_left flat_map].
  - exists []. rewrite app_nil_r. repeat split; [constructor|cbn; lia].
  - destruct (each_rule_adds ch doc processedHtml ruleArr) as (e1 & -> & H1 & L1).
    destruct (IH (processedHtml ++ e1)) as (e2 & -> & H2 & L2).
    exists (e1 ++ e2). rewrite <- app_assoc. repeat split.
    + apply Forall_app. now split.
    + rewrite !length_app. lia.
Qed.

(** The first [preprocessHTML] returns non-empty fragments only, at most
    one for each selector of a line of type css; lines of another type, and
    a line [css] without selectors, add nothing. *)
Theorem legacy_fragments_are_nonempty ch doc rulesStr :
  Forall (fun fragment => truthy fragment = true) (Legacy.preprocessHTML ch doc rulesStr) /\
  length (Legacy.preprocessHTML ch doc rulesStr)
  <= length (flat_map selectors_of (split [NL] rulesStr)).
Proof.
  unfold Legacy.preprocessHTML.
  destruct (fold_rules_adds ch doc (split [NL] rulesStr) []) as (extra & -> & H & L).
  split; assumption.
Qed.

End LegacyFacts.
